(** * Percolation of a 2D height field

    A shallow embedding of [2d_percolation.py]: the predicate
    [is_percolating] on a binary mask, and the bisection
    [percolation_threshold] that calls it on the features returned by
    [scipy.ndimage.label].

    - A 2D NumPy array is a record of its shape and its rows.
    - A Python exception is a value of [exn]; a call that may raise returns
      a [result].
    - The [while] loop of the search runs for at most [fuel] iterations;
      running out of them is the outcome [OutOfFuel]. The least [fuel] that
      gives a result is the number of iterations the loop makes.
    - The element type of the height field is an instance of [Scalar]: the
      search only adds, subtracts, halves and compares heights. [float64] is
      the instance of IEEE 754 binary64 numbers, which is what NumPy
      computes with on an array of floats: its operations round, overflow
      and propagate NaN.
    - [val] reads a finite height as the rational number it stands for. A
      run whose heights are finite and whose loop tests and midpoints are
      the ones of these numbers is [unrounded]; the statements on the number
      of iterations are about such runs.
    - [scipy.ndimage.label] is an argument of the search; [SciPy.label] is a
      model of it (features joined along edges, numbered in row-major
      order). *)

From Stdlib Require Import String List Bool Arith ZArith QArith Qpower Lia Lqa.
From Stdlib Require Import Floats.
Import ListNotations.
Close Scope Q_scope.

Set Implicit Arguments.

(** ** Exceptions and results *)

Inductive exn : Type :=
| ValueError (msg : string)
| AxisError (axis : Z) (ndim : nat)
| IndexError (index : Z) (size : nat).

Inductive result (A : Type) : Type :=
| Ok (a : A)
| Raise (e : exn).

Arguments Ok {A} a.
Arguments Raise {A} e.

Definition bind {A B : Type} (r : result A) (k : A -> result B) : result B :=
  match r with
  | Ok a => k a
  | Raise e => Raise e
  end.

Notation "x <- r ;; k" := (bind r (fun x => k))
  (at level 61, r at next level, right associativity).

(** ** NumPy arrays of dimension 2 *)

Module NumPy.

Record ndarray (A : Type) : Type := mk_ndarray {
  nrows : nat;
  ncols : nat;
  cells : list (list A)
}.

(** The rows agree with the shape. *)
Definition well_shaped {A : Type} (a : ndarray A) : bool :=
  (length (cells a) =? nrows a) &&
  forallb (fun r => length r =? ncols a) (cells a).

(** [a[i, j]] for indices in range; [d] outside. *)
Definition item {A : Type} (d : A) (a : ndarray A) (i j : nat) : A :=
  nth j (nth i (cells a) []) d.

(** Element-wise operations ([a <= x], [a == k], [a.astype(int)]). *)
Definition amap {A B : Type} (g : A -> B) (a : ndarray A) : ndarray B :=
  {| nrows := nrows a; ncols := ncols a; cells := map (map g) (cells a) |}.

(** [a.ravel()]: the elements in row-major order. *)
Definition ravel {A : Type} (a : ndarray A) : list A := concat (cells a).

(** [np.any(f, axis=0)]: one entry per column. *)
Definition any_axis0 (f : ndarray bool) : list bool :=
  map (fun j => existsb (fun row => nth j row false) (cells f))
      (seq 0 (ncols f)).

(** [np.any(f, axis=1)]: one entry per row. *)
Definition any_axis1 (f : ndarray bool) : list bool :=
  map (existsb (fun b => b)) (cells f).

(** [np.any(f, axis=axis)] on a 2D array: axes -2 and -1 count from the
    end, any other axis is out of bounds. *)
Definition any_along (f : ndarray bool) (axis : Z) : result (list bool) :=
  if ((axis =? 0) || (axis =? -2))%Z then Ok (any_axis0 f)
  else if ((axis =? 1) || (axis =? -1))%Z then Ok (any_axis1 f)
  else Raise (AxisError axis 2).

(** [np.all] and [np.any] of a vector. *)
Definition all (v : list bool) : bool := forallb (fun b => b) v.
Definition any (v : list bool) : bool := existsb (fun b => b) v.

(** [np.bitwise_and] of two vectors of one length. *)
Fixpoint bitwise_and (u v : list bool) : list bool :=
  match u, v with
  | a :: u', b :: v' => (a && b) :: bitwise_and u' v'
  | _, _ => []
  end.

(** A Python index into a dimension of size [n]: negative indices count
    from the end. *)
Definition index (n : nat) (i : Z) : result nat :=
  if ((0 <=? i) && (i <? Z.of_nat n))%Z then Ok (Z.to_nat i)
  else if ((- Z.of_nat n <=? i) && (i <? 0))%Z then Ok (Z.to_nat (i + Z.of_nat n))
  else Raise (IndexError i n).

(** [f[:, j]] *)
Definition column (f : ndarray bool) (j : Z) : result (list bool) :=
  j' <- index (ncols f) j ;;
  Ok (map (fun row => nth j' row false) (cells f)).

(** [f[i]] *)
Definition row (f : ndarray bool) (i : Z) : result (list bool) :=
  i' <- index (nrows f) i ;;
  Ok (nth i' (cells f) []).

(** [np.array(rows)] for rows of one length. *)
Definition array {A : Type} (rows : list (list A)) : ndarray A :=
  {| nrows := length rows;
     ncols := match rows with [] => 0 | r :: _ => length r end;
     cells := rows |}.

End NumPy.

Import NumPy.

(** ** The percolation predicate *)

Definition axis_message : string := "axis should be 0 (x) or 1 (y)".

Definition is_percolating (f : ndarray bool) (axis : Z) (periodic : bool)
  : result bool :=
  spans <- any_along f axis ;;
  if NumPy.all spans then
    if periodic then
      if (axis =? 0)%Z then
        first <- column f 0 ;;
        last <- column f (-1) ;;
        if negb (NumPy.any (bitwise_and first last)) then Ok false else Ok true
      else if (axis =? 1)%Z then
        first <- row f 0 ;;
        last <- row f (-1) ;;
        if negb (NumPy.any (bitwise_and first last)) then Ok false else Ok true
      else Raise (ValueError axis_message)
    else Ok true
  else Ok false.

(** ** Connected-component labelling

    [scipy.ndimage.label] with its default structuring element: two
    foreground cells belong to one feature when they share an edge. The
    features are numbered 1, 2, ... in the order in which a row-major scan
    meets their first cell; the background is 0. *)

Module SciPy.

(** [l] with [g] applied to its element [n]. *)
Fixpoint update {A : Type} (l : list A) (n : nat) (g : A -> A) : list A :=
  match l, n with
  | [], _ => []
  | x :: l', 0 => g x :: l'
  | x :: l', S n' => x :: update l' n' g
  end.

Definition set_item (lab : list (list nat)) (i j k : nat) : list (list nat) :=
  update lab i (fun r => update r j (fun _ => k)).

(** The cells sharing an edge with [(i, j)]; those outside the grid read as
    background. *)
Definition neighbours (i j : nat) : list (nat * nat) :=
  (if i =? 0 then [] else [(i - 1, j)]) ++ [(i + 1, j)] ++
  (if j =? 0 then [] else [(i, j - 1)]) ++ [(i, j + 1)].

(** The cell [(i, j)] of the image is not zero. *)
Definition foreground (img : list (list Z)) (i j : nat) : bool :=
  negb (nth j (nth i img []) 0 =? 0)%Z.

(** The label of the cell [(i, j)], 0 for none. *)
Definition label_of (lab : list (list nat)) (i j : nat) : nat :=
  nth j (nth i lab []) 0.

(** A foreground cell that has no label yet. *)
Definition unlabelled (img : list (list Z)) (lab : list (list nat))
  (i j : nat) : bool :=
  foreground img i j && (label_of lab i j =? 0).

(** Gives the label [k] to every unlabelled foreground cell reachable from
    the cells of [work]. A cell is labelled once and adds four cells to
    [work]: one step more than four times the size of the grid is enough. *)
Fixpoint flood (fuel : nat) (img : list (list Z)) (lab : list (list nat))
  (k : nat) (work : list (nat * nat)) : list (list nat) :=
  match fuel with
  | 0 => lab
  | S fuel' =>
      match work with
      | [] => lab
      | (i, j) :: rest =>
          if unlabelled img lab i j
          then flood fuel' img (set_item lab i j k) k (neighbours i j ++ rest)
          else flood fuel' img lab k rest
      end
  end.

(** The row-major scan: each unlabelled foreground cell starts a feature. *)
Fixpoint scan (fuel : nat) (img : list (list Z)) (raster : list (nat * nat))
  (lab : list (list nat)) (count : nat) : list (list nat) * nat :=
  match raster with
  | [] => (lab, count)
  | (i, j) :: rest =>
      if unlabelled img lab i j
      then scan fuel img rest (flood fuel img lab (S count) [(i, j)]) (S count)
      else scan fuel img rest lab count
  end.

Definition label (image : ndarray Z) : ndarray nat * nat :=
  let size := nrows image * ncols image in
  let blank := map (map (fun _ : Z => 0)) (cells image) in
  let raster := list_prod (seq 0 (nrows image)) (seq 0 (ncols image)) in
  let (lab, count) := scan (S (4 * size)) (cells image) raster blank 0 in
  ({| nrows := nrows image; ncols := ncols image; cells := lab |}, count).

End SciPy.

(** ** The element type of the height field *)

Class Scalar (T : Type) : Type := {
  sc_add : T -> T -> T;
  sc_sub : T -> T -> T;
  sc_half : T -> T;            (* x / 2 *)
  sc_leb : T -> T -> bool;     (* x <= y *)
  sc_gtb : T -> T -> bool;     (* x > y *)
  sc_max : T -> T -> T;        (* np.maximum *)
  sc_min : T -> T -> T         (* np.minimum *)
}.

(** ** The threshold search *)

(** How a run of the search ends. *)
Inductive outcome (A : Type) : Type :=
| Returned (a : A)
| Raised (e : exn)
| OutOfFuel.

Arguments Returned {A} a.
Arguments Raised {A} e.
Arguments OutOfFuel {A}.

Section Search.

Context {T : Type} {scalar : Scalar T}.

(** The labelling routine ([scipy.ndimage.label] in the source). *)
Variable label : ndarray Z -> ndarray nat * nat.

(** The local variables of [percolation_threshold]. *)
Record bracket : Type := mk_bracket {
  threshold_upper : T;
  threshold_lower : T;
  percolating_cluster : option (ndarray Z)
}.

Definition empty_message (op : string) : string :=
  "zero-size array to reduction operation " ++ op ++ " which has no identity".

(** [landscape.max()] and [landscape.min()] *)
Definition reduce (op : T -> T -> T) (name : string) (a : ndarray T)
  : result T :=
  match ravel a with
  | [] => Raise (ValueError (empty_message name))
  | x :: xs => Ok (fold_left op xs x)
  end.

Definition amax : ndarray T -> result T := reduce sc_max "maximum".
Definition amin : ndarray T -> result T := reduce sc_min "minimum".

(** [b.astype(int)] *)
Definition astype_int (f : ndarray bool) : ndarray Z :=
  amap (fun b : bool => if b then 1%Z else 0%Z) f.

(** An integer mask read as a boolean array. *)
Definition astype_bool (f : ndarray Z) : ndarray bool :=
  amap (fun z => negb (z =? 0)%Z) f.

(** [(landscape <= mid_point).astype(int)] *)
Definition below (landscape : ndarray T) (mid : T) : ndarray Z :=
  astype_int (amap (fun h => sc_leb h mid) landscape).

(** [features == l + 1] *)
Definition feature (features : ndarray nat) (l : nat) : ndarray bool :=
  amap (fun v => v =? l + 1) features.

(** The [for] loop over the features: the first percolating one, or [None]
    when the loop reaches its [else]. *)
Fixpoint first_percolating (features : ndarray nat) (axis : Z)
  (periodic : bool) (ls : list nat) : result (option (ndarray bool)) :=
  match ls with
  | [] => Ok None
  | l :: rest =>
      let f := feature features l in
      p <- is_percolating f axis periodic ;;
      if p then Ok (Some f)
      else first_percolating features axis periodic rest
  end.

Definition mid_point (b : bracket) : T :=
  sc_half (sc_add (threshold_upper b) (threshold_lower b)).

(** The test of the [while] loop. *)
Definition open (conv : T) (b : bracket) : bool :=
  sc_gtb (sc_sub (threshold_upper b) (threshold_lower b)) conv.

(** The labelling and the [for] loop at the height [mid]. *)
Definition percolating_at (landscape : ndarray T) (axis : Z)
  (periodic : bool) (mid : T) : result (option (ndarray bool)) :=
  let image := below landscape mid in
  let (features, labels) := label image in
  first_percolating features axis periodic (seq 0 labels).

(** One iteration of the [while] loop. *)
Definition step (landscape : ndarray T) (axis : Z) (periodic : bool)
  (b : bracket) : result bracket :=
  let mid := mid_point b in
  found <- percolating_at landscape axis periodic mid ;;
  match found with
  | Some f =>
      Ok {| threshold_upper := mid;
            threshold_lower := threshold_lower b;
            percolating_cluster := Some (astype_int f) |}
  | None =>
      Ok {| threshold_upper := threshold_upper b;
            threshold_lower := mid;
            percolating_cluster := percolating_cluster b |}
  end.

(** The [while] loop, for at most [fuel] iterations. *)
Fixpoint bisect (fuel : nat) (landscape : ndarray T) (axis : Z) (conv : T)
  (periodic : bool) (b : bracket) {struct fuel} : outcome bracket :=
  if open conv b then
    match fuel with
    | 0 => OutOfFuel
    | S fuel' =>
        match step landscape axis periodic b with
        | Raise e => Raised e
        | Ok b' => bisect fuel' landscape axis conv periodic b'
        end
    end
  else Returned b.

(** The bracket the loop starts from. *)
Definition initial (landscape : ndarray T) : result bracket :=
  upper <- amax landscape ;;
  lower <- amin landscape ;;
  Ok {| threshold_upper := upper;
        threshold_lower := lower;
        percolating_cluster := None |}.

(** The search up to the end of its loop: the final bracket. *)
Definition search (fuel : nat) (landscape : ndarray T) (axis : Z) (conv : T)
  (periodic : bool) : outcome bracket :=
  match initial landscape with
  | Raise e => Raised e
  | Ok b => bisect fuel landscape axis conv periodic b
  end.

Definition percolation_threshold (fuel : nat) (landscape : ndarray T)
  (axis : Z) (conv : T) (periodic : bool)
  : outcome (T * option (ndarray Z)) :=
  match search fuel landscape axis conv periodic with
  | Returned b => Returned (threshold_upper b, percolating_cluster b)
  | Raised e => Raised e
  | OutOfFuel => OutOfFuel
  end.

(** The brackets the loop goes through: the initial one, and the one each
    iteration leaves. *)
Inductive visits (landscape : ndarray T) (axis : Z) (conv : T)
  (periodic : bool) : bracket -> Prop :=
| visits_initial b :
    initial landscape = Ok b -> visits landscape axis conv periodic b
| visits_step b b' :
    visits landscape axis conv periodic b ->
    open conv b = true ->
    step landscape axis periodic b = Ok b' ->
    visits landscape axis conv periodic b'.

End Search.

Arguments bracket T : clear implicits.

(** NumPy's [float64]: IEEE 754 binary64, rounding to nearest even. A
    comparison with a NaN is false; [np.maximum] and [np.minimum] return a
    NaN operand. *)
#[export] Instance float64 : Scalar float := {|
  sc_add := PrimFloat.add;
  sc_sub := PrimFloat.sub;
  sc_half := fun x => PrimFloat.div x 2%float;
  sc_leb := PrimFloat.leb;
  sc_gtb := fun x y => PrimFloat.ltb y x;
  sc_max := fun x y =>
    if PrimFloat.is_nan x then x else if PrimFloat.is_nan y then y
    else if PrimFloat.ltb x y then y else x;
  sc_min := fun x y =>
    if PrimFloat.is_nan x then x else if PrimFloat.is_nan y then y
    else if PrimFloat.ltb y x then y else x
|}.

(** The laws of the order of the heights that the search relies on. A
    height that compares with itself is not a NaN. *)
Class Ordered (T : Type) {scalar : Scalar T} : Prop := {
  leb_trans : forall x y z : T,
    sc_leb x y = true -> sc_leb y z = true -> sc_leb x z = true;
  leb_refl : forall x y : T,
    sc_leb x y = true -> sc_leb x x = true /\ sc_leb y y = true;
  gtb_asym : forall x y : T, sc_gtb x y = true -> sc_gtb y x = false;
  max_pick : forall x y : T, sc_max x y = x \/ sc_max x y = y;
  min_pick : forall x y : T, sc_min x y = x \/ sc_min x y = y;
  max_gtb : forall x y : T,
    sc_gtb x y = true -> sc_max x y = x /\ sc_max y x = x;
  min_gtb : forall x y : T,
    sc_gtb x y = true -> sc_min x y = y /\ sc_min y x = y;
  max_bound : forall x y : T,
    sc_leb x x = true -> sc_leb y y = true ->
    sc_leb x (sc_max x y) = true /\ sc_leb y (sc_max x y) = true;
  min_bound : forall x y : T,
    sc_leb x x = true -> sc_leb y y = true ->
    sc_leb (sc_min x y) x = true /\ sc_leb (sc_min x y) y = true
}.

Arguments Ordered T {scalar}.

(** The rational number a finite height stands for. *)
Class Reading (T : Type) : Type := {
  finite : T -> bool;
  val : T -> Q
}.

(** The floats that are numbers: neither an infinity nor a NaN. *)
Definition SFnumber (x : spec_float) : bool :=
  match x with
  | S754_zero _ | S754_finite _ _ _ => true
  | _ => false
  end.

(** The number a finite float stands for: 0 for a zero, and [m * 2^e] with
    its sign otherwise. *)
Definition SFvalue (x : spec_float) : Q :=
  match x with
  | S754_finite s m e =>
      let v := (inject_Z (Z.pos m) * 2 ^ e)%Q in
      if s then (- v)%Q else v
  | _ => 0%Q
  end.

#[export] Instance float64_reading : Reading float := {|
  finite := fun x => SFnumber (Prim2SF x);
  val := fun x => SFvalue (Prim2SF x)
|}.

(** Finite heights compare as their numbers do: a comparison does not
    round. *)
Class Faithful (T : Type) {scalar : Scalar T} {reading : Reading T}
  : Prop := {
  leb_val : forall x y : T,
    finite x = true -> finite y = true ->
    sc_leb x y = Qle_bool (val x) (val y)
}.

Arguments Faithful T {scalar reading}.

(** ** The vocabulary of the claims *)

(** Every line perpendicular to [axis] holds an "on" cell: every column for
    axis 0, every row for axis 1. *)
Definition spanning (f : ndarray bool) (axis : Z) : Prop :=
  if (axis =? 0)%Z then
    forall j, j < ncols f -> exists i, i < nrows f /\ item false f i j = true
  else
    forall i, i < nrows f -> exists j, j < ncols f /\ item false f i j = true.

(** The two boundary slices share an "on" position: columns 0 and -1 for
    axis 0, rows 0 and -1 for axis 1. *)
Definition wraps (f : ndarray bool) (axis : Z) : Prop :=
  if (axis =? 0)%Z then
    exists i, i < nrows f /\
      item false f i 0 = true /\ item false f i (ncols f - 1) = true
  else
    exists j, j < ncols f /\
      item false f 0 j = true /\ item false f (nrows f - 1) j = true.

(** [np.all(np.any(f, axis=axis))], false when the reduction raises. *)
Definition spans_along (f : ndarray bool) (axis : Z) : bool :=
  match any_along f axis with
  | Ok spans => NumPy.all spans
  | Raise _ => false
  end.

(** A mask that is "on" exactly on its row [r]. *)
Definition single_full_row (f : ndarray bool) (r : nat) : Prop :=
  well_shaped f = true /\ r < nrows f /\ 1 <= ncols f /\
  forall i j, i < nrows f -> j < ncols f -> item false f i j = (i =? r).

(** A labelling returns a label map of the shape of its image. *)
Definition shape_kept (label : ndarray Z -> ndarray nat * nat) : Prop :=
  forall image,
    nrows (fst (label image)) = nrows image /\
    ncols (fst (label image)) = ncols image.

(** The width of a bracket, as a number. *)
Definition width {T : Type} {reading : Reading T} (b : bracket T) : Q :=
  (val (threshold_upper b) - val (threshold_lower b))%Q.

(** The test of the loop, [upper - lower > conv], is the test on the
    numbers. *)
Definition exact_test {T : Type} {scalar : Scalar T} {reading : Reading T}
  (conv : T) (b : bracket T) : Prop :=
  open conv b = negb (Qle_bool (width b) (val conv)).

(** The midpoint [(upper + lower) / 2] is finite, and it is the midpoint of
    the numbers. *)
Definition exact_mid {T : Type} {scalar : Scalar T} {reading : Reading T}
  (b : bracket T) : Prop :=
  finite (mid_point b) = true /\
  (val (mid_point b) ==
   (val (threshold_upper b) + val (threshold_lower b)) / 2)%Q.

(** The tolerance and the two ends of the bracket are finite. *)
Definition finite_bracket {T : Type} {reading : Reading T} (conv : T)
  (b : bracket T) : bool :=
  finite conv && finite (threshold_upper b) && finite (threshold_lower b).

(** Nothing is rounded in the run: at every bracket the loop goes through
    the numbers are finite, the test of the loop is exact, and so is the
    midpoint it computes. *)
Definition unrounded {T : Type} {scalar : Scalar T} {reading : Reading T}
  (label : ndarray Z -> ndarray nat * nat) (landscape : ndarray T)
  (axis : Z) (conv : T) (periodic : bool) : Prop :=
  forall b, visits label landscape axis conv periodic b ->
    finite_bracket conv b = true /\
    exact_test conv b /\ (open conv b = true -> exact_mid b).

(** The bracket lies between [lo] and [hi], in the order of the heights. *)
Definition within {T : Type} {scalar : Scalar T} (lo hi : T)
  (b : bracket T) : Prop :=
  sc_leb lo (threshold_lower b) = true /\
  sc_leb (threshold_lower b) (threshold_upper b) = true /\
  sc_leb (threshold_upper b) hi = true.

(** The midpoint of the bracket lies between its ends. *)
Definition centred {T : Type} {scalar : Scalar T} (b : bracket T) : Prop :=
  sc_leb (threshold_lower b) (mid_point b) = true /\
  sc_leb (mid_point b) (threshold_upper b) = true.

(** Every midpoint the loop computes lies between the ends of its
    bracket. *)
Definition midpoints_inside {T : Type} {scalar : Scalar T}
  (label : ndarray Z -> ndarray nat * nat) (landscape : ndarray T)
  (axis : Z) (conv : T) (periodic : bool) : Prop :=
  forall b, visits label landscape axis conv periodic b ->
    open conv b = true -> centred b.

(** No height of the field is a NaN: each one compares with itself. *)
Definition no_nan {T : Type} {scalar : Scalar T} (landscape : ndarray T)
  : bool :=
  forallb (fun h => sc_leb h h) (ravel landscape).

(** No feature percolates at any height from [lo] on that is under [hi]. *)
Definition never_percolates {T : Type} {scalar : Scalar T}
  (label : ndarray Z -> ndarray nat * nat) (landscape : ndarray T)
  (axis : Z) (periodic : bool) (lo hi : T) : Prop :=
  forall mid, sc_leb lo mid = true -> sc_leb hi mid = false ->
  percolating_at label landscape axis periodic mid = Ok None.

(** No two foreground cells of the image share an edge. *)
Definition sparse (img : list (list Z)) : Prop :=
  forall i j, SciPy.foreground img i j = true ->
  forall p, In p (SciPy.neighbours i j) ->
  SciPy.foreground img (fst p) (snd p) = false.

(** The labels are at most [count], and no label is given to two cells. *)
Definition distinct (lab : list (list nat)) (count : nat) : Prop :=
  (forall i j, SciPy.label_of lab i j <= count) /\
  (forall i j i' j',
     SciPy.label_of lab i j = SciPy.label_of lab i' j' ->
     SciPy.label_of lab i j <> 0 -> (i, j) = (i', j')).

(** At most one cell of the mask is "on". *)
Definition at_most_one (f : ndarray bool) : Prop :=
  forall i j i' j',
    item false f i j = true -> item false f i' j' = true ->
    (i, j) = (i', j').

(** A field whose cells all hold [c]. *)
Definition constant {T : Type} (landscape : ndarray T) (c : T) : Prop :=
  ravel landscape <> [] /\ Forall (fun h => h = c) (ravel landscape).

(** The brackets of the first [fuel] iterations of the loop, from [b]. *)
Fixpoint trace {T : Type} {scalar : Scalar T}
  (label : ndarray Z -> ndarray nat * nat) (fuel : nat)
  (landscape : ndarray T) (axis : Z) (conv : T) (periodic : bool)
  (b : bracket T) {struct fuel} : list (bracket T) :=
  b :: (if open conv b then
          match fuel with
          | 0 => []
          | S fuel' =>
              match step label landscape axis periodic b with
              | Ok b' => trace label fuel' landscape axis conv periodic b'
              | Raise _ => []
              end
          end
        else []).

(** [p] holds of every bracket of the first [fuel] iterations of the
    search. *)
Definition along {T : Type} {scalar : Scalar T}
  (label : ndarray Z -> ndarray nat * nat) (fuel : nat)
  (landscape : ndarray T) (axis : Z) (conv : T) (periodic : bool)
  (p : bracket T -> bool) : bool :=
  match initial landscape with
  | Ok b => forallb p (trace label fuel landscape axis conv periodic b)
  | Raise _ => true
  end.

(** The tests of [unrounded] and [midpoints_inside] at a bracket. *)
Definition exactb {T : Type} {scalar : Scalar T} {reading : Reading T}
  (conv : T) (b : bracket T) : bool :=
  finite_bracket conv b &&
  Bool.eqb (open conv b) (negb (Qle_bool (width b) (val conv))) &&
  (negb (open conv b) ||
   finite (mid_point b) &&
   Qeq_bool (val (mid_point b))
     ((val (threshold_upper b) + val (threshold_lower b)) / 2)).

Definition centredb {T : Type} {scalar : Scalar T} (conv : T)
  (b : bracket T) : bool :=
  negb (open conv b) ||
  sc_leb (threshold_lower b) (mid_point b) &&
  sc_leb (mid_point b) (threshold_upper b).

(** ** Masks and fields used as examples *)

(** Two cells on the diagonal of a 2x2 grid. *)
Definition diagonal : ndarray bool := array [[true; false]; [false; true]].

(** A 3x3 grid whose middle row is "on". *)
Definition band : ndarray bool :=
  array [[false; false; false]; [true; true; true]; [false; false; false]].

(** A single "off" cell. *)
Definition dark : ndarray bool := array [[false]].

(** The 5x5 field whose row 2 is [o] and whose other cells are [x]. *)
Definition trench {T : Type} (o x : T) : ndarray T :=
  array [[x; x; x; x; x]; [x; x; x; x; x]; [o; o; o; o; o];
         [x; x; x; x; x]; [x; x; x; x; x]].

(** The mask of row 2 of a 5x5 grid. *)
Definition trench_mask : ndarray Z := trench 1%Z 0%Z.

(** A 4x4 checkerboard of [o] and [x]. *)
Definition checkerboard {T : Type} (o x : T) : ndarray T :=
  array [[o; x; o; x]; [x; o; x; o]; [o; x; o; x]; [x; o; x; o]].

(** An [R]x[C] checkerboard: the cell [(0, 0)] holds [o] when [origin] is
    true, and neighbours alternate between [o] and [x]. *)
Definition checker {T : Type} (R C : nat) (origin : bool) (o x : T)
  : ndarray T :=
  {| nrows := R;
     ncols := C;
     cells := map (fun i =>
                map (fun j => if Bool.eqb (Nat.even (i + j)) origin
                              then o else x) (seq 0 C)) (seq 0 R) |}.

(** The cells of a checkerboard that hold its first height. *)
Definition low (origin : bool) (i j : nat) : bool :=
  Bool.eqb (Nat.even (i + j)) origin.

(** A constant 2x2 field. *)
Definition flat {T : Type} (c : T) : ndarray T := array [[c; c]; [c; c]].

(** Two cells, 0 and 1e20: the floats next to 1e20 are 16384 apart. *)
Definition steep : ndarray float := array [[0; 1e20]]%float.

(** The bracket in which the search on [steep] stays: its ends are
    neighbouring floats. *)
Definition stuck : bracket float :=
  {| threshold_upper := 1e20%float;
     threshold_lower := 99999999999999983616%float;
     percolating_cluster := Some (array [[1; 1]]%Z) |}.

(** Two cells, 0 and the float nearest to 0.1. *)
Definition shallow : ndarray float :=
  array [[0; 0x1.999999999999ap-4]]%float.

(** The second bracket of the search on [shallow]: from 0.05 to 0.1. *)
Definition second : bracket float :=
  {| threshold_upper := 0x1.999999999999ap-4%float;
     threshold_lower := 0x1.999999999999ap-5%float;
     percolating_cluster := None |}.

(** A tolerance under the spacing of the floats next to 100. *)
Definition tiny : float := 0x1p-60%float.

(** The bracket in which the search on the checkerboard of 0 and 100 stays
    with that tolerance: its ends are neighbouring floats, and the mask is
    the full grid. *)
Definition jammed : bracket float :=
  {| threshold_upper := 100%float;
     threshold_lower := 0x1.8ffffffffffffp+6%float;
     percolating_cluster := Some (checkerboard 1 1)%Z |}.

(** Two cells whose sum is above the largest [float64]. *)
Definition huge : ndarray float := array [[0x1.8p+1023; 0x1p+1023]]%float.

(** A field with a NaN. *)
Definition holed : ndarray float := array [[0; nan]; [10; 10]]%float.

(** The [float64] nearest to 0.01. *)
Definition hundredth : float := 0x1.47ae147ae147bp-7%float.

(** The image of the example in the documentation of [scipy.ndimage.label]. *)
Definition documented : ndarray Z :=
  array [[0; 0; 1; 1; 0; 0]; [0; 0; 0; 1; 0; 0];
         [1; 1; 0; 0; 1; 0]; [0; 0; 0; 1; 0; 0]]%Z.

(** ** The vocabulary of the further properties *)

(** Every cell of the mask is "off". *)
Definition all_off (f : ndarray bool) : Prop :=
  forall i j, i < nrows f -> j < ncols f -> item false f i j = false.

(** Every cell of the mask is "on". *)
Definition all_on (f : ndarray bool) : Prop :=
  forall i j, i < nrows f -> j < ncols f -> item false f i j = true.

(** [g] has the shape of [f] and is "on" wherever [f] is. *)
Definition covers (f g : ndarray bool) : Prop :=
  nrows f = nrows g /\ ncols f = ncols g /\
  forall i j, i < nrows f -> j < ncols f ->
    item false f i j = true -> item false g i j = true.

(** The call raises. *)
Definition raises {A : Type} (r : result A) : Prop := exists e, r = Raise e.

(** [f.T]: the rows of the transpose are the columns of [f]. *)
Definition transpose (f : ndarray bool) : ndarray bool :=
  {| nrows := ncols f;
     ncols := nrows f;
     cells := map (fun j => map (fun row => nth j row false) (cells f))
                  (seq 0 (ncols f)) |}.

(** What the ends of a bracket are: the upper end is the maximum, with no
    cluster yet, or a height whose first percolating feature is the kept
    cluster; the lower end is the minimum or a height at which no feature
    percolates. *)
Definition brackets {T : Type} {scalar : Scalar T}
  (label : ndarray Z -> ndarray nat * nat) (landscape : ndarray T)
  (axis : Z) (periodic : bool) (b0 b : bracket T) : Prop :=
  ((percolating_cluster b = None /\
    threshold_upper b = threshold_upper b0) \/
   (exists f,
      percolating_at label landscape axis periodic (threshold_upper b) =
        Ok (Some f) /\
      percolating_cluster b = Some (astype_int f))) /\
  (threshold_lower b = threshold_lower b0 \/
   percolating_at label landscape axis periodic (threshold_lower b) =
     Ok None).

(** Features percolate at the heights that [h] is at most, and at no
    other. *)
Definition critical {T : Type} {scalar : Scalar T}
  (label : ndarray Z -> ndarray nat * nat) (landscape : ndarray T)
  (axis : Z) (periodic : bool) (h : T) : Prop :=
  forall mid,
    (sc_leb h mid = false ->
     percolating_at label landscape axis periodic mid = Ok None) /\
    (sc_leb h mid = true ->
     exists f, percolating_at label landscape axis periodic mid = Ok (Some f)).

(** A field with a step: the first row percolates along axis 0 from the
    height 5 on. *)
Definition stairs : ndarray float := array [[0; 5]; [10; 10]]%float.

(** A field whose low cells span along axis 0 without meeting across the
    boundary. *)
Definition zigzag : ndarray float := array [[0; 0; 9]; [9; 0; 0]]%float.

(** The last bracket of the search on the trench field along axis 0. *)
Definition trench_bracket : bracket float :=
  {| threshold_upper := 0.009765625%float;
     threshold_lower := 0%float;
     percolating_cluster := Some trench_mask |}.

(** A labelling gives labels to foreground cells only. *)
Definition labels_foreground (label : ndarray Z -> ndarray nat * nat) : Prop :=
  forall image i j,
    SciPy.label_of (cells (fst (label image))) i j <> 0 ->
    SciPy.foreground (cells image) i j = true.

(** ** Lemmas on the array operations *)

Section ArrayFacts.

Variable f : ndarray bool.
Hypothesis Hshape : well_shaped f = true.

Lemma shape_rows : length (cells f) = nrows f.
Proof.
  pose proof Hshape as H. unfold well_shaped in H.
  apply andb_true_iff in H. now apply Nat.eqb_eq.
Qed.

Lemma shape_cols i : i < nrows f -> length (nth i (cells f) []) = ncols f.
Proof.
  intros Hi. pose proof Hshape as H. unfold well_shaped in H.
  apply andb_true_iff in H. destruct H as [_ Hall].
  rewrite forallb_forall in Hall.
  apply Nat.eqb_eq, Hall, nth_In. now rewrite shape_rows.
Qed.

Lemma any_axis0_spec j :
  existsb (fun row => nth j row false) (cells f) = true <->
  exists i, i < nrows f /\ item false f i j = true.
Proof.
  rewrite existsb_exists. unfold item. split.
  - intros (r & Hin & Hr). destruct (In_nth _ _ [] Hin) as (i & Hi & Hnth).
    exists i. rewrite <- shape_rows. split; [exact Hi|]. now rewrite Hnth.
  - intros (i & Hi & Hv). exists (nth i (cells f) []). split; [|exact Hv].
    apply nth_In. now rewrite shape_rows.
Qed.

Lemma any_axis1_spec i :
  i < nrows f ->
  existsb (fun b => b) (nth i (cells f) []) = true <->
  exists j, j < ncols f /\ item false f i j = true.
Proof.
  intros Hi. rewrite existsb_exists. unfold item.
  rewrite <- (shape_cols Hi). split.
  - intros (b & Hin & Hb). destruct (In_nth _ _ false Hin) as (j & Hj & Hnth).
    exists j. split; [exact Hj|]. now rewrite Hnth.
  - intros (j & Hj & Hv). exists true. split; [|reflexivity].
    rewrite <- Hv. now apply nth_In.
Qed.

Lemma all_any_axis0 : NumPy.all (any_axis0 f) = true <-> spanning f 0.
Proof.
  unfold NumPy.all, any_axis0, spanning. cbn [Z.eqb].
  rewrite forallb_forall. split.
  - intros H j Hj. apply any_axis0_spec. apply H.
    apply in_map_iff. exists j. split; [reflexivity|].
    apply in_seq. lia.
  - intros H b Hb. apply in_map_iff in Hb. destruct Hb as (j & <- & Hj).
    apply in_seq in Hj. apply any_axis0_spec, H. lia.
Qed.

Lemma all_any_axis1 : NumPy.all (any_axis1 f) = true <-> spanning f 1.
Proof.
  unfold NumPy.all, any_axis1, spanning. cbn [Z.eqb].
  rewrite forallb_forall. split.
  - intros H i Hi. apply (any_axis1_spec Hi). apply H.
    apply in_map. apply nth_In. now rewrite shape_rows.
  - intros H b Hb. apply in_map_iff in Hb. destruct Hb as (r & <- & Hr).
    destruct (In_nth _ _ [] Hr) as (i & Hi & <-).
    rewrite shape_rows in Hi. apply (any_axis1_spec Hi), H, Hi.
Qed.

End ArrayFacts.

(** Case analysis on every test of the goal. *)
Ltac case_tests :=
  repeat match goal with
         | |- context [if ?c then _ else _] => destruct c
         end.

Lemma nth_nil_false (n : nat) : nth n (@nil bool) false = false.
Proof. now destruct n. Qed.

Lemma nth_map_column (j i : nat) (rows : list (list bool)) :
  nth i (map (fun row => nth j row false) rows) false =
  nth j (nth i rows []) false.
Proof.
  revert i. induction rows as [|r rows IH]; intros [|i]; cbn; auto;
    now destruct j.
Qed.

Lemma any_bitwise_and (u v : list bool) :
  NumPy.any (bitwise_and u v) = true <->
  exists j, j < length u /\ nth j u false = true /\ nth j v false = true.
Proof.
  revert v. induction u as [|a u IH]; intros v.
  - cbn. split; [discriminate|]. intros (j & Hj & _). inversion Hj.
  - destruct v as [|b v].
    + cbn [bitwise_and NumPy.any existsb]. split; [discriminate|].
      intros (j & _ & _ & Hv). now rewrite nth_nil_false in Hv.
    + cbn [bitwise_and NumPy.any existsb]. fold (NumPy.any (bitwise_and u v)).
      rewrite orb_true_iff, andb_true_iff, IH. split.
      * intros [[Ha Hb]|(j & Hj & Hu & Hv)].
        -- exists 0. cbn. repeat split; [lia|assumption|assumption].
        -- exists (S j). cbn. repeat split; [lia|assumption|assumption].
      * intros ([|j] & Hj & Hu & Hv); cbn in Hj, Hu, Hv.
        -- left. now split.
        -- right. exists j. repeat split; [lia|assumption|assumption].
Qed.

Lemma index_first (n : nat) : 1 <= n -> index n 0 = Ok 0.
Proof.
  intros Hn. unfold index.
  replace ((0 <=? 0)%Z && (0 <? Z.of_nat n)%Z) with true; [reflexivity|].
  symmetry. apply andb_true_iff. split; [reflexivity|]. apply Z.ltb_lt. lia.
Qed.

Lemma index_last (n : nat) : 1 <= n -> index n (-1) = Ok (n - 1).
Proof.
  intros Hn. unfold index. cbn [Z.leb Z.compare andb].
  replace ((- Z.of_nat n <=? -1)%Z && (-1 <? 0)%Z) with true.
  - f_equal. lia.
  - symmetry. apply andb_true_iff. split; [apply Z.leb_le; lia|reflexivity].
Qed.

Lemma spans_along_spanning (f : ndarray bool) (axis : Z) :
  well_shaped f = true -> (axis = 0 \/ axis = 1)%Z ->
  spans_along f axis = true <-> spanning f axis.
Proof.
  intros Hf [-> | ->]; unfold spans_along, any_along; cbn [Z.eqb Pos.eqb orb].
  - now apply all_any_axis0.
  - now apply all_any_axis1.
Qed.

(** Without the periodic test the predicate is the spanning test. *)
Lemma percolating_free (f : ndarray bool) (axis : Z) :
  (axis = 0 \/ axis = 1)%Z ->
  is_percolating f axis false = Ok (spans_along f axis).
Proof.
  intros [-> | ->]; unfold is_percolating, spans_along, any_along;
    cbn [Z.eqb Pos.eqb orb bind].
  - destruct (NumPy.all (any_axis0 f)); reflexivity.
  - destruct (NumPy.all (any_axis1 f)); reflexivity.
Qed.

(** With it, a spanning mask percolates when its boundary slices meet. *)
Lemma percolating_wrapped (f : ndarray bool) (axis : Z) :
  well_shaped f = true -> 1 <= nrows f -> 1 <= ncols f ->
  (axis = 0 \/ axis = 1)%Z -> spans_along f axis = true ->
  exists b, is_percolating f axis true = Ok b /\ (b = true <-> wraps f axis).
Proof.
  intros Hf HR HC Haxis Hspan.
  unfold is_percolating. unfold spans_along in Hspan.
  destruct (any_along f axis) as [spans|e]; [|discriminate].
  cbn [bind]. rewrite Hspan.
  destruct Haxis as [-> | ->]; cbn [Z.eqb Pos.eqb]; unfold wraps;
    cbn [Z.eqb Pos.eqb].
  - unfold column. rewrite (index_first HC), (index_last HC). cbn [bind].
    set (first := map _ (cells f)). set (last := map _ (cells f)).
    exists (NumPy.any (bitwise_and first last)).
    split; [now destruct (NumPy.any _)|].
    rewrite any_bitwise_and. subst first last. rewrite length_map.
    rewrite (@shape_rows f Hf).
    unfold item.
    split; intros (i & Hi & H0 & H1); exists i; (split; [exact Hi|]).
    + rewrite !nth_map_column in H0, H1. now split.
    + rewrite !nth_map_column. now split.
  - unfold row. rewrite (index_first HR), (index_last HR). cbn [bind].
    set (first := nth 0 (cells f) []). set (last := nth _ (cells f) []).
    exists (NumPy.any (bitwise_and first last)).
    split; [now destruct (NumPy.any _)|].
    rewrite any_bitwise_and. subst first last.
    rewrite (@shape_cols f Hf 0) by lia. unfold item. reflexivity.
Qed.

(** Which axes raise the axis message, which raise NumPy's own error, and
    which return. *)
Lemma is_percolating_cases (f : ndarray bool) (axis : Z) (periodic : bool) :
  ((axis = 0 \/ axis = 1)%Z /\
     is_percolating f axis periodic <> Raise (ValueError axis_message)) \/
  ((axis = -1 \/ axis = -2)%Z /\
     is_percolating f axis periodic =
       if spans_along f axis
       then (if periodic then Raise (ValueError axis_message) else Ok true)
       else Ok false) \/
  ((axis < -2 \/ 1 < axis)%Z /\
     is_percolating f axis periodic = Raise (AxisError axis 2)).
Proof.
  destruct (Z.eq_dec axis 0) as [->|H0].
  { left. split; [now left|].
    unfold is_percolating, any_along, column, index.
    cbn [Z.eqb Pos.eqb orb bind].
    destruct (NumPy.all (any_axis0 f)); [|discriminate].
    destruct periodic; [|discriminate].
    case_tests; cbn [bind]; case_tests; cbn [bind]; case_tests;
      discriminate. }
  destruct (Z.eq_dec axis 1) as [->|H1].
  { left. split; [now right|].
    unfold is_percolating, any_along, row, index.
    cbn [Z.eqb Pos.eqb orb bind].
    destruct (NumPy.all (any_axis1 f)); [|discriminate].
    destruct periodic; [|discriminate].
    case_tests; cbn [bind]; case_tests; cbn [bind]; case_tests;
      discriminate. }
  right.
  assert (E0 : (axis =? 0)%Z = false) by now apply Z.eqb_neq.
  assert (E1 : (axis =? 1)%Z = false) by now apply Z.eqb_neq.
  unfold is_percolating, spans_along, any_along. rewrite E0, E1.
  cbn [orb].
  destruct (Z.eq_dec axis (-2)) as [->|H2].
  { left. split; [now right|]. cbn [Z.eqb Pos.eqb bind].
    destruct (NumPy.all (any_axis0 f)); [|reflexivity].
    now destruct periodic. }
  destruct (Z.eq_dec axis (-1)) as [->|H3].
  { left. split; [now left|]. cbn [Z.eqb Pos.eqb bind].
    destruct (NumPy.all (any_axis1 f)); [|reflexivity].
    now destruct periodic. }
  right. split; [lia|].
  assert (E2 : (axis =? -2)%Z = false) by now apply Z.eqb_neq.
  assert (E3 : (axis =? -1)%Z = false) by now apply Z.eqb_neq.
  now rewrite E2, E3.
Qed.

Lemma band_single_full_row : single_full_row band 1.
Proof.
  repeat split; cbn; try lia.
  intros i j Hi Hj.
  do 3 (destruct i as [|i];
        [do 3 (destruct j as [|j]; [reflexivity|]); lia|]).
  lia.
Qed.

(** The labelling of the documented example: four features, numbered in
    row-major order of their first cell. *)
Lemma label_documented :
  SciPy.label documented =
    (array [[0; 0; 1; 1; 0; 0]; [0; 0; 0; 1; 0; 0];
            [2; 2; 0; 0; 3; 0]; [0; 0; 0; 4; 0; 0]], 4).
Proof. reflexivity. Qed.

(** ** The search, for any element type *)

Lemma astype_round_trip (f : ndarray bool) : astype_bool (astype_int f) = f.
Proof.
  destruct f as [R C rows]. unfold astype_bool, astype_int, amap.
  cbn [nrows ncols cells]. f_equal.
  rewrite map_map. rewrite <- (map_id rows) at 2.
  apply map_ext. intros r. rewrite map_map. rewrite <- (map_id r) at 2.
  apply map_ext. now intros [|].
Qed.

Lemma label_shape_kept : shape_kept SciPy.label.
Proof.
  intros image. unfold SciPy.label.
  destruct (SciPy.scan _ _ _ _ _) as [lab count]. now split.
Qed.

(** On a grid with a row and a column, along axis 0 or 1, the predicate
    returns. *)
Lemma is_percolating_returns (f : ndarray bool) (axis : Z) (periodic : bool) :
  1 <= nrows f -> 1 <= ncols f -> (axis = 0 \/ axis = 1)%Z ->
  exists b, is_percolating f axis periodic = Ok b.
Proof.
  intros HR HC [-> | ->]; unfold is_percolating, any_along, column, row;
    cbn [Z.eqb Pos.eqb orb bind];
    rewrite ?(index_first HR), ?(index_last HR),
            ?(index_first HC), ?(index_last HC); cbn [bind];
    case_tests; eauto.
Qed.

Section SearchFacts.

Context {T : Type} {scalar : Scalar T}.
Variable label : ndarray Z -> ndarray nat * nat.
Variable landscape : ndarray T.
Variable axis : Z.
Variable conv : T.
Variable periodic : bool.

Lemma first_percolating_sound (features : ndarray nat) (ls : list nat)
  (f : ndarray bool) :
  first_percolating features axis periodic ls = Ok (Some f) ->
  is_percolating f axis periodic = Ok true.
Proof.
  induction ls as [|l ls IH]; cbn [first_percolating]; [discriminate|].
  destruct (is_percolating (feature features l) axis periodic)
    as [[|]|e] eqn:Hp; cbn [bind].
  - intros H. injection H as <-. exact Hp.
  - exact IH.
  - discriminate.
Qed.

Lemma percolating_at_sound (mid : T) (f : ndarray bool) :
  percolating_at label landscape axis periodic mid = Ok (Some f) ->
  is_percolating f axis periodic = Ok true.
Proof.
  unfold percolating_at. destruct (label _) as [features labels].
  apply first_percolating_sound.
Qed.

(** What an iteration does to the bracket. *)
Lemma step_cases (b b' : bracket T) :
  step label landscape axis periodic b = Ok b' ->
  (percolating_at label landscape axis periodic (mid_point b) = Ok None /\
   threshold_upper b' = threshold_upper b /\
   threshold_lower b' = mid_point b /\
   percolating_cluster b' = percolating_cluster b) \/
  (exists f,
     percolating_at label landscape axis periodic (mid_point b) = Ok (Some f) /\
     threshold_upper b' = mid_point b /\
     threshold_lower b' = threshold_lower b /\
     percolating_cluster b' = Some (astype_int f)).
Proof.
  unfold step.
  destruct (percolating_at label landscape axis periodic (mid_point b))
    as [[f|]|e]; cbn [bind]; intros H; [| |discriminate];
    injection H as <-; cbn; [right; exists f|left]; auto.
Qed.

Lemma bisect_visits (n : nat) (b b' : bracket T) :
  visits label landscape axis conv periodic b ->
  bisect label n landscape axis conv periodic b = Returned b' ->
  visits label landscape axis conv periodic b' /\ open conv b' = false.
Proof.
  revert b. induction n as [|n IH]; intros b Hb; cbn [bisect];
    destruct (open conv b) eqn:Hopen; try discriminate.
  - intros H. injection H as <-. now split.
  - destruct (step label landscape axis periodic b) as [b1|e] eqn:Hstep;
      [|discriminate].
    apply IH. now apply visits_step with b.
  - intros H. injection H as <-. now split.
Qed.

Lemma search_visits (n : nat) (b : bracket T) :
  search label n landscape axis conv periodic = Returned b ->
  visits label landscape axis conv periodic b /\ open conv b = false.
Proof.
  unfold search. destruct (initial landscape) as [b0|e] eqn:H0;
    [|discriminate].
  apply bisect_visits. now apply visits_initial.
Qed.

(** More fuel does not change a result. *)
Lemma bisect_more_fuel (n m : nat) (b b' : bracket T) :
  bisect label n landscape axis conv periodic b = Returned b' -> n <= m ->
  bisect label m landscape axis conv periodic b = Returned b'.
Proof.
  revert m b. induction n as [|n IH]; intros m b; cbn [bisect].
  - destruct (open conv b) eqn:Hopen; [discriminate|].
    intros H _. destruct m; cbn [bisect]; now rewrite Hopen.
  - destruct (open conv b) eqn:Hopen.
    + destruct (step label landscape axis periodic b) as [b1|e] eqn:Hstep;
        [|discriminate].
      intros H Hm. destruct m as [|m]; [lia|]. cbn [bisect].
      rewrite Hopen, Hstep. apply IH; [exact H | lia].
    + intros H _. destruct m; cbn [bisect]; now rewrite Hopen.
Qed.

(** A bracket that an iteration leaves as it is, with the test of the loop
    true, is never left. *)
Lemma bisect_stuck (b : bracket T) :
  open conv b = true -> step label landscape axis periodic b = Ok b ->
  forall n, bisect label n landscape axis conv periodic b = OutOfFuel.
Proof.
  intros Hopen Hstep n. induction n as [|n IH]; cbn [bisect]; rewrite Hopen.
  - reflexivity.
  - now rewrite Hstep.
Qed.

Lemma bisect_next (b b' : bracket T) :
  open conv b = true -> step label landscape axis periodic b = Ok b' ->
  (forall n, bisect label n landscape axis conv periodic b' = OutOfFuel) ->
  forall n, bisect label n landscape axis conv periodic b = OutOfFuel.
Proof.
  intros Hopen Hstep H [|n]; cbn [bisect]; rewrite Hopen.
  - reflexivity.
  - rewrite Hstep. apply H.
Qed.

(** The retained cluster percolates. *)
Lemma visits_cluster (b : bracket T) :
  visits label landscape axis conv periodic b ->
  forall m, percolating_cluster b = Some m ->
            is_percolating (astype_bool m) axis periodic = Ok true.
Proof.
  induction 1 as [b H0 | b b' Hb IH Hopen Hstep]; intros m Hm.
  - unfold initial in H0.
    destruct (amax landscape) as [u|]; [|discriminate].
    destruct (amin landscape) as [l|]; [|discriminate].
    cbn [bind] in H0. injection H0 as <-. discriminate.
  - destruct (@step_cases b b' Hstep) as [(_ & _ & _ & Hc)|(f & Hf & _ & _ & Hc)].
    + apply IH. now rewrite <- Hc.
    + rewrite Hc in Hm. injection Hm as <-. rewrite astype_round_trip.
      now apply percolating_at_sound with (mid_point b).
Qed.

End SearchFacts.

(** The loop body returns when the predicate cannot raise. *)
Section Totality.

Context {T : Type} {scalar : Scalar T}.
Variable label : ndarray Z -> ndarray nat * nat.
Variable landscape : ndarray T.
Variable axis : Z.
Variable periodic : bool.

Hypothesis label_shape : shape_kept label.
Hypothesis rows_exist : 1 <= nrows landscape.
Hypothesis columns_exist : 1 <= ncols landscape.
Hypothesis axis_valid : (axis = 0 \/ axis = 1)%Z.

Lemma first_percolating_returns (features : ndarray nat) (ls : list nat) :
  1 <= nrows features -> 1 <= ncols features ->
  exists found, first_percolating features axis periodic ls = Ok found.
Proof.
  intros HR HC. induction ls as [|l ls IH]; cbn [first_percolating].
  - now exists None.
  - destruct (@is_percolating_returns (feature features l) axis periodic)
      as [[|] Hp]; try assumption; rewrite Hp; cbn [bind]; eauto.
Qed.

Lemma percolating_at_returns (mid : T) :
  exists found,
    percolating_at label landscape axis periodic mid = Ok found.
Proof.
  unfold percolating_at.
  destruct (label_shape (below landscape mid)) as [HR HC].
  destruct (label (below landscape mid)) as [features labels].
  cbn [fst] in HR, HC.
  apply first_percolating_returns; [rewrite HR | rewrite HC]; assumption.
Qed.

Lemma step_returns (b : bracket T) :
  exists b', step label landscape axis periodic b = Ok b'.
Proof.
  unfold step.
  destruct (percolating_at_returns (mid_point b)) as [[f|] ->]; cbn [bind];
    eauto.
Qed.

End Totality.

(** What the loop has established at each of its brackets. *)
Section BracketFacts.

Context {T : Type} {scalar : Scalar T}.
Variable label : ndarray Z -> ndarray nat * nat.
Variable landscape : ndarray T.
Variable axis : Z.
Variable conv : T.
Variable periodic : bool.

Lemma visits_brackets (b0 b : bracket T) :
  initial landscape = Ok b0 ->
  visits label landscape axis conv periodic b ->
  brackets label landscape axis periodic b0 b.
Proof.
  intros H0. induction 1 as [b Hb | b b' Hb IH Hopen Hstep].
  - rewrite H0 in Hb. injection Hb as <-. split; [left|now left].
    split; [|reflexivity].
    unfold initial in H0.
    destruct (amax landscape); [|discriminate].
    destruct (amin landscape); [|discriminate].
    cbn [bind] in H0. now injection H0 as <-.
  - destruct IH as [Hup Hlow].
    destruct (@step_cases T scalar label landscape axis periodic b b' Hstep)
      as [(Hnone & Eu & El & Ec)|(f & Hf & Eu & El & Ec)];
      unfold brackets; rewrite Eu, El, Ec.
    + split; [exact Hup | now right].
    + split; [right; now exists f | exact Hlow].
Qed.

End BracketFacts.

(** ** The order of [float64] *)

(** The comparisons of [SpecFloat], by cases on the two numbers. *)
Ltac compare_cases :=
  unfold SFleb, SFltb, SFeqb, SFcompare;
  repeat match goal with
         | s : bool |- _ => destruct s
         end;
  rewrite ?Pos.compare_cont_spec; cbn [Pos.switch_Eq];
  repeat match goal with
         | |- context [Z.compare ?a ?b] => destruct (Z.compare_spec a b)
         | |- context [Pos.compare ?a ?b] => destruct (Pos.compare_spec a b)
         end;
  cbn [CompOpp]; try discriminate; try reflexivity; try lia; auto.

Lemma SFleb_trans (x y z : spec_float) :
  SFleb x y = true -> SFleb y z = true -> SFleb x z = true.
Proof.
  destruct x as [sx|sx| |sx mx ex], y as [sy|sy| |sy my ey],
    z as [sz|sz| |sz mz ez]; compare_cases.
Qed.

Lemma SFleb_refl (x y : spec_float) :
  SFleb x y = true -> SFleb x x = true /\ SFleb y y = true.
Proof.
  destruct x as [sx|sx| |sx mx ex], y as [sy|sy| |sy my ey];
    try discriminate; intros _; split; compare_cases.
Qed.

Lemma SFltb_asym (x y : spec_float) : SFltb x y = true -> SFltb y x = false.
Proof.
  destruct x as [sx|sx| |sx mx ex], y as [sy|sy| |sy my ey]; compare_cases.
Qed.

Lemma SFltb_leb (x y : spec_float) :
  SFltb x y = true -> SFleb x y = true /\ SFleb y x = false.
Proof.
  destruct x as [sx|sx| |sx mx ex], y as [sy|sy| |sy my ey];
    try discriminate; intros H; split; revert H; compare_cases.
Qed.

Lemma SFleb_total (x y : spec_float) :
  SFleb x x = true -> SFleb y y = true -> SFltb x y = false ->
  SFleb y x = true.
Proof.
  destruct x as [sx|sx| |sx mx ex], y as [sy|sy| |sy my ey]; compare_cases.
Qed.

Lemma SFeqb_leb (x : spec_float) : SFeqb x x = SFleb x x.
Proof. destruct x as [sx|sx| |sx mx ex]; compare_cases. Qed.

(** A float is a NaN exactly when it does not compare with itself. *)
Lemma is_nan_leb (x : float) : PrimFloat.is_nan x = negb (PrimFloat.leb x x).
Proof.
  unfold PrimFloat.is_nan. now rewrite eqb_spec, leb_spec, SFeqb_leb.
Qed.

Lemma ltb_not_nan (x y : float) :
  PrimFloat.ltb x y = true ->
  PrimFloat.is_nan x = false /\ PrimFloat.is_nan y = false.
Proof.
  rewrite !is_nan_leb, ltb_spec, !leb_spec. intros H.
  destruct (@SFltb_leb _ _ H) as [Hle _].
  destruct (@SFleb_refl _ _ Hle) as [-> ->]. now split.
Qed.

#[export] Instance float64_ordered : Ordered float.
Proof.
  constructor; cbn [sc_leb sc_gtb sc_max sc_min float64].
  - intros x y z. rewrite !leb_spec. apply SFleb_trans.
  - intros x y. rewrite !leb_spec. apply SFleb_refl.
  - intros x y. rewrite !ltb_spec. apply SFltb_asym.
  - intros x y. destruct (PrimFloat.is_nan x), (PrimFloat.is_nan y),
      (PrimFloat.ltb x y); auto.
  - intros x y. destruct (PrimFloat.is_nan x), (PrimFloat.is_nan y),
      (PrimFloat.ltb y x); auto.
  - intros x y H. destruct (@ltb_not_nan _ _ H) as [Hy Hx].
    rewrite Hx, Hy, H. rewrite ltb_spec in H. apply SFltb_asym in H.
    rewrite <- ltb_spec in H. now rewrite H.
  - intros x y H. destruct (@ltb_not_nan _ _ H) as [Hy Hx].
    rewrite Hx, Hy, H. rewrite ltb_spec in H. apply SFltb_asym in H.
    rewrite <- ltb_spec in H. now rewrite H.
  - intros x y Hx Hy. rewrite !is_nan_leb, Hx, Hy. cbn [negb].
    destruct (PrimFloat.ltb x y) eqn:H; rewrite ltb_spec in H.
    + split; [|exact Hy]. rewrite leb_spec. now apply SFltb_leb.
    + split; [exact Hx|]. rewrite leb_spec in *. now apply SFleb_total.
  - intros x y Hx Hy. rewrite !is_nan_leb, Hx, Hy. cbn [negb].
    destruct (PrimFloat.ltb y x) eqn:H; rewrite ltb_spec in H.
    + split; [|exact Hy]. rewrite leb_spec. now apply SFltb_leb.
    + split; [exact Hx|]. rewrite leb_spec in *. now apply SFleb_total.
Qed.

(** ** The numbers of [float64] *)

Lemma digits2_pos_bounds (m : positive) :
  (2 ^ (Z.pos (digits2_pos m) - 1) <= Z.pos m < 2 ^ Z.pos (digits2_pos m))%Z.
Proof.
  induction m as [m IH|m IH|]; cbn [digits2_pos];
    rewrite ?Pos2Z.inj_succ.
  - replace (Z.succ (Z.pos (digits2_pos m)) - 1)%Z
      with (Z.succ (Z.pos (digits2_pos m) - 1)) by lia.
    rewrite !Z.pow_succ_r by lia. lia.
  - replace (Z.succ (Z.pos (digits2_pos m)) - 1)%Z
      with (Z.succ (Z.pos (digits2_pos m) - 1)) by lia.
    rewrite !Z.pow_succ_r by lia. lia.
  - cbn. lia.
Qed.

(** The mantissa of a valid float has at most 53 digits, and exactly 53 when
    the exponent is above the least one. *)
Lemma bounded_digits (m : positive) (e : Z) :
  bounded prec emax m e = true ->
  (-1074 <= e)%Z /\ (Z.pos m < 2 ^ 53)%Z /\
  (-1074 < e -> 2 ^ 52 <= Z.pos m)%Z.
Proof.
  unfold bounded, canonical_mantissa, fexp. intros H.
  apply andb_true_iff in H. destruct H as [H _]. apply Z.eqb_eq in H.
  pose proof (digits2_pos_bounds m) as [Hlow Hhigh].
  change (IntDef.Z.max ?a ?b) with (Z.max a b) in H.
  change prec with 53%Z in H.
  change (SpecFloat.emin 53 emax) with (-1074)%Z in *.
  assert (Hd : (Z.pos (digits2_pos m) <= 53)%Z) by lia.
  split; [lia|]. split.
  - apply Z.lt_le_trans with (2 ^ Z.pos (digits2_pos m))%Z; [exact Hhigh|].
    apply Z.pow_le_mono_r; lia.
  - intros He. assert (Ed : Z.pos (digits2_pos m) = 53%Z) by lia.
    rewrite Ed in Hlow. exact Hlow.
Qed.

Lemma pow2_positive (e : Z) : (0 < 2 ^ e)%Q.
Proof. apply Qpower_0_lt. reflexivity. Qed.

Lemma pow2_split (e d : Z) :
  (0 <= d)%Z -> (2 ^ (e + d) == 2 ^ e * inject_Z (2 ^ d))%Q.
Proof.
  intros Hd. rewrite Qpower_plus by discriminate.
  now rewrite (Zpower_Qpower 2 d Hd).
Qed.

(** The order of the numbers [m * 2^e] of two valid floats. *)
Lemma scaled_lt (m1 m2 : positive) (e1 e2 : Z) :
  bounded prec emax m1 e1 = true -> bounded prec emax m2 e2 = true ->
  (e1 < e2)%Z ->
  (inject_Z (Z.pos m1) * 2 ^ e1 < inject_Z (Z.pos m2) * 2 ^ e2)%Q.
Proof.
  intros H1 H2 He.
  destruct (@bounded_digits _ _ H1) as (Hmin & Hhigh & _).
  destruct (@bounded_digits _ _ H2) as (_ & _ & Hlow).
  specialize (Hlow ltac:(lia)).
  replace e2 with (e1 + (e2 - e1))%Z by lia.
  rewrite pow2_split by lia.
  assert (Hk : (2 ^ 1 <= 2 ^ (e2 - e1))%Z) by (apply Z.pow_le_mono_r; lia).
  assert (Hz : (Z.pos m1 < Z.pos m2 * 2 ^ (e2 - e1))%Z).
  { change (2 ^ 53)%Z with (2 * 2 ^ 52)%Z in Hhigh.
    change (2 ^ 1)%Z with 2%Z in Hk. nia. }
  rewrite Zlt_Qlt, inject_Z_mult in Hz.
  pose proof (pow2_positive e1) as Hp.
  setoid_replace (inject_Z (Z.pos m2) * (2 ^ e1 * inject_Z (2 ^ (e2 - e1))))%Q
    with (inject_Z (Z.pos m2) * inject_Z (2 ^ (e2 - e1)) * 2 ^ e1)%Q by ring.
  now apply Qmult_lt_compat_r.
Qed.

Lemma scaled_le (m1 m2 : positive) (e : Z) :
  (inject_Z (Z.pos m1) * 2 ^ e <= inject_Z (Z.pos m2) * 2 ^ e)%Q <->
  (m1 <= m2)%positive.
Proof.
  pose proof (pow2_positive e) as Hp. split.
  - intros H. apply Qmult_le_r in H; [|exact Hp].
    rewrite <- Zle_Qle in H. exact H.
  - intros H. apply Qmult_le_r; [exact Hp|]. rewrite <- Zle_Qle. exact H.
Qed.

Lemma scaled_pos (m : positive) (e : Z) : (0 < inject_Z (Z.pos m) * 2 ^ e)%Q.
Proof.
  apply Qmult_lt_0_compat; [|apply pow2_positive].
  change 0%Q with (inject_Z 0). rewrite <- Zlt_Qlt. reflexivity.
Qed.

(** The comparison of two valid, finite floats is the one of their
    numbers. *)
Lemma SFleb_value (x y : spec_float) :
  valid_binary x = true -> valid_binary y = true ->
  SFnumber x = true -> SFnumber y = true ->
  SFleb x y = Qle_bool (SFvalue x) (SFvalue y).
Proof.
  intros Vx Vy Nx Ny. apply eq_true_iff_eq. rewrite Qle_bool_iff.
  destruct x as [sx|sx| |sx mx ex], y as [sy|sy| |sy my ey];
    try discriminate; cbn [SFvalue]; unfold SFleb, SFcompare.
  - split; [intros _; apply Qle_refl | reflexivity].
  - pose proof (scaled_pos my ey) as Hy.
    destruct sy; split; try discriminate; try reflexivity; intros H; lra.
  - pose proof (scaled_pos mx ex) as Hx.
    destruct sx; split; try discriminate; try reflexivity; intros H; lra.
  - cbn [valid_binary SpecFloat.valid_binary] in Vx, Vy.
    pose proof (scaled_pos mx ex) as Hx. pose proof (scaled_pos my ey) as Hy.
    rewrite Pos.compare_cont_spec. cbn [Pos.switch_Eq].
    destruct sx, sy.
    + destruct (Z.compare_spec ex ey) as [E|E|E].
      * subst ey. pose proof (scaled_le my mx ex) as Hle.
        destruct (Pos.compare_spec mx my) as [E|E|E]; cbn [CompOpp];
          split; try discriminate; try reflexivity; intros H.
        -- subst. lra.
        -- assert (H' : (my <= mx)%positive) by (apply Hle; lra). lia.
        -- assert (H' : (my <= mx)%positive) by lia.
           apply Hle in H'. lra.
      * pose proof (@scaled_lt _ _ _ _ Vx Vy E).
        split; [discriminate | intros H'; lra].
      * pose proof (@scaled_lt _ _ _ _ Vy Vx E).
        split; [intros _; lra | reflexivity].
    + split; [intros _; lra | reflexivity].
    + split; [discriminate | intros H; lra].
    + destruct (Z.compare_spec ex ey) as [E|E|E].
      * subst ey. pose proof (scaled_le mx my ex) as Hle.
        destruct (Pos.compare_spec mx my) as [E|E|E];
          split; try discriminate; try reflexivity; intros H.
        -- subst. lra.
        -- apply Hle. lia.
        -- apply Hle in H. lia.
      * pose proof (@scaled_lt _ _ _ _ Vx Vy E).
        split; [intros _; lra | reflexivity].
      * pose proof (@scaled_lt _ _ _ _ Vy Vx E).
        split; [discriminate | intros H'; lra].
Qed.

#[export] Instance float64_faithful : Faithful float.
Proof.
  constructor. intros x y Hx Hy. cbn [sc_leb float64 val float64_reading].
  rewrite leb_spec. apply SFleb_value; try apply Prim2SF_valid; assumption.
Qed.

(** A finite float minus itself is zero. *)
Lemma sub_diag (c : float) :
  match Prim2SF c with
  | S754_zero _ | S754_finite _ _ _ => PrimFloat.sub c c = 0%float
  | _ => True
  end.
Proof.
  destruct (Prim2SF c) as [s|s| |s m e] eqn:E; try exact I;
    apply Prim2SF_inj; rewrite sub_spec, E; unfold SF64sub, SFsub.
  - now destruct s.
  - rewrite Z.min_id. unfold shl_align. rewrite Z.sub_diag. cbn [fst].
    reflexivity.
Qed.

(** ** The extremes of the field *)

Section Extremes.

Context {T : Type} {scalar : Scalar T} {ordered : Ordered T}.

Lemma max_idem (x : T) : sc_max x x = x.
Proof. now destruct (max_pick x x). Qed.

Lemma min_idem (x : T) : sc_min x x = x.
Proof. now destruct (min_pick x x). Qed.

Lemma fold_max_ge (xs : list T) (x : T) :
  sc_leb x x = true -> Forall (fun h => sc_leb h h = true) xs ->
  sc_leb x (fold_left sc_max xs x) = true.
Proof.
  intros Hx Hxs. revert x Hx.
  induction Hxs as [|y xs Hy _ IH]; intros x Hx; cbn [fold_left];
    [exact Hx|].
  destruct (max_bound x y Hx Hy) as [H _].
  apply leb_trans with (sc_max x y); [exact H|].
  apply IH. now destruct (leb_refl _ _ H).
Qed.

Lemma fold_min_le (xs : list T) (x : T) :
  sc_leb x x = true -> Forall (fun h => sc_leb h h = true) xs ->
  sc_leb (fold_left sc_min xs x) x = true.
Proof.
  intros Hx Hxs. revert x Hx.
  induction Hxs as [|y xs Hy _ IH]; intros x Hx; cbn [fold_left];
    [exact Hx|].
  destruct (min_bound x y Hx Hy) as [H _].
  apply leb_trans with (sc_min x y); [|exact H].
  apply IH. now destruct (leb_refl _ _ H).
Qed.

Lemma fold_max_constant (c : T) (xs : list T) :
  Forall (fun h => h = c) xs -> fold_left sc_max xs c = c.
Proof.
  induction 1 as [|y xs -> _ IH]; cbn [fold_left]; [reflexivity|].
  now rewrite max_idem.
Qed.

Lemma fold_min_constant (c : T) (xs : list T) :
  Forall (fun h => h = c) xs -> fold_left sc_min xs c = c.
Proof.
  induction 1 as [|y xs -> _ IH]; cbn [fold_left]; [reflexivity|].
  now rewrite min_idem.
Qed.

Variable landscape : ndarray T.

(** Without a NaN the minimum is at most the maximum. *)
Lemma extremes_ordered (hi lo : T) :
  no_nan landscape = true ->
  amax landscape = Ok hi -> amin landscape = Ok lo ->
  sc_leb lo hi = true.
Proof.
  unfold no_nan, amax, amin, reduce.
  destruct (ravel landscape) as [|x xs]; [discriminate|].
  cbn [forallb]. intros Hnan Hhi Hlo. injection Hhi as <-.
  injection Hlo as <-. apply andb_true_iff in Hnan.
  destruct Hnan as [Hx Hxs]. rewrite forallb_forall in Hxs.
  apply Forall_forall in Hxs.
  apply leb_trans with x; [now apply fold_min_le | now apply fold_max_ge].
Qed.

Lemma initial_extremes (hi lo : T) :
  amax landscape = Ok hi -> amin landscape = Ok lo ->
  initial landscape =
    Ok {| threshold_upper := hi; threshold_lower := lo;
          percolating_cluster := None |}.
Proof. intros Hhi Hlo. unfold initial. now rewrite Hhi, Hlo. Qed.

End Extremes.

(** A field with a row and a column has a maximum and a minimum. *)
Lemma initial_returns {T : Type} {scalar : Scalar T} (landscape : ndarray T) :
  well_shaped landscape = true ->
  1 <= nrows landscape -> 1 <= ncols landscape ->
  exists b, initial landscape = Ok b.
Proof.
  intros Hshape HR HC. unfold initial, amax, amin, reduce, ravel.
  unfold well_shaped in Hshape. apply andb_true_iff in Hshape.
  destruct Hshape as [Hrows Hcols]. apply Nat.eqb_eq in Hrows.
  destruct (cells landscape) as [|r rows]; cbn in Hrows; [lia|].
  cbn in Hcols. apply andb_true_iff in Hcols. destruct Hcols as [Hr _].
  apply Nat.eqb_eq in Hr. destruct r as [|x r]; cbn in Hr; [lia|].
  cbn. eauto.
Qed.

Lemma initial_cases {T : Type} {scalar : Scalar T} (landscape : ndarray T)
  (b : bracket T) :
  initial landscape = Ok b ->
  amax landscape = Ok (threshold_upper b) /\
  amin landscape = Ok (threshold_lower b) /\
  percolating_cluster b = None.
Proof.
  unfold initial.
  destruct (amax landscape) as [hi|]; [|discriminate].
  destruct (amin landscape) as [lo|]; [|discriminate].
  cbn [bind]. intros H. now injection H as <-.
Qed.

(** ** The bracket and the extremes *)

Section OrderFacts.

Context {T : Type} {scalar : Scalar T} {ordered : Ordered T}.
Variable label : ndarray Z -> ndarray nat * nat.
Variable landscape : ndarray T.
Variable axis : Z.
Variable conv : T.
Variable periodic : bool.

Lemma step_within (lo hi : T) (b b' : bracket T) :
  within lo hi b -> centred b ->
  step label landscape axis periodic b = Ok b' -> within lo hi b'.
Proof.
  intros (Hlo & Hle & Hhi) [Hm1 Hm2] H. unfold within.
  destruct (@step_cases T scalar label landscape axis periodic b b' H)
    as [(_ & -> & -> & _)|(f & _ & -> & -> & _)]; repeat split;
    try assumption.
  - now apply leb_trans with (threshold_lower b).
  - now apply leb_trans with (threshold_upper b).
Qed.

Lemma mid_point_within (lo hi : T) (b : bracket T) :
  within lo hi b -> centred b ->
  sc_leb lo (mid_point b) = true /\ sc_leb (mid_point b) hi = true.
Proof.
  intros (Hlo & Hle & Hhi) [Hm1 Hm2]. split.
  - now apply leb_trans with (threshold_lower b).
  - now apply leb_trans with (threshold_upper b).
Qed.

Lemma visits_within (lo hi : T) (b : bracket T) :
  amax landscape = Ok hi -> amin landscape = Ok lo ->
  sc_leb lo hi = true ->
  midpoints_inside label landscape axis conv periodic ->
  visits label landscape axis conv periodic b -> within lo hi b.
Proof.
  intros Hhi Hlo Hle Hmid. induction 1 as [b H0 | b b' Hb IH Hopen Hstep].
  - rewrite (initial_extremes landscape Hhi Hlo) in H0. injection H0 as <-.
    destruct (leb_refl _ _ Hle) as [Hl Hh]. now repeat split.
  - apply step_within with b; [exact IH | now apply Hmid | exact Hstep].
Qed.

End OrderFacts.

(** ** Runs without rounding *)

Section Halvings.

Local Open Scope Q_scope.

Lemma pow2_pos (n : nat) : 0 < 2 ^ Z.of_nat n.
Proof. apply Qpower_0_lt. reflexivity. Qed.

Lemma pow2_succ (n : nat) : 2 ^ Z.of_nat (S n) == 2 * 2 ^ Z.of_nat n.
Proof.
  rewrite Nat2Z.inj_succ. unfold Z.succ.
  rewrite Qpower_plus by discriminate. rewrite Qpower_1_r. ring.
Qed.

Lemma halved_succ (w : Q) (n : nat) :
  w / 2 ^ Z.of_nat (S n) == w / 2 / 2 ^ Z.of_nat n.
Proof.
  rewrite pow2_succ. field. pose proof (pow2_pos n) as H.
  intros E. rewrite E in H. discriminate.
Qed.

Lemma halved_zero (w : Q) : w / 2 ^ Z.of_nat 0 == w.
Proof. cbn. field. Qed.

(** Enough halvings bring any width under a positive tolerance. *)
Lemma halvings_exist (c w : Q) : 0 < c -> exists k, w / 2 ^ Z.of_nat k <= c.
Proof.
  intros Hc.
  destruct (Qarchimedean_power2_pos (w / c)) as [p Hp].
  exists (Pos.to_nat p). rewrite positive_nat_Z.
  assert (Hpow : Z.pos (2 ^ p) # 1 == 2 ^ Z.pos p).
  { rewrite Pos2Z.inj_pow. change (Z.pos 2 ^ Z.pos p # 1)
      with (inject_Z (2 ^ Z.pos p)).
    now rewrite Zpower_Qpower. }
  rewrite Hpow in Hp.
  assert (Hpos : 0 < 2 ^ Z.pos p) by (apply Qpower_0_lt; reflexivity).
  apply Qle_shift_div_r; [exact Hpos|].
  apply Qlt_le_weak.
  assert (Hw : w == w / c * c) by (field; lra).
  rewrite Hw at 1. rewrite (Qmult_comm c).
  apply Qmult_lt_compat_r; assumption.
Qed.

End Halvings.

Section ExactFacts.

Local Open Scope Q_scope.

Context {T : Type} {scalar : Scalar T} {reading : Reading T}.
Variable label : ndarray Z -> ndarray nat * nat.
Variable landscape : ndarray T.
Variable axis : Z.
Variable conv : T.
Variable periodic : bool.

Lemma open_iff (b : bracket T) :
  exact_test conv b -> (open conv b = true <-> val conv < width b).
Proof.
  unfold exact_test. intros ->.
  rewrite negb_true_iff, <- not_true_iff_false, Qle_bool_iff.
  split; [apply Qnot_le_lt | apply Qlt_not_le].
Qed.

Lemma closed_iff (b : bracket T) :
  exact_test conv b -> (open conv b = false <-> width b <= val conv).
Proof.
  unfold exact_test. intros ->. now rewrite negb_false_iff, Qle_bool_iff.
Qed.

Lemma mid_point_double (b : bracket T) :
  exact_mid b ->
  2 * val (mid_point b) == val (threshold_upper b) + val (threshold_lower b).
Proof. unfold exact_mid. intros [_ ->]. field. Qed.

(** An exact midpoint halves the width. *)
Lemma step_width (b b' : bracket T) :
  exact_mid b -> step label landscape axis periodic b = Ok b' ->
  width b' == width b / 2.
Proof.
  intros [_ Hmid] H. unfold width.
  destruct (@step_cases T scalar label landscape axis periodic b b' H)
    as [(_ & -> & -> & _)|(f & _ & -> & -> & _)];
    rewrite Hmid; field.
Qed.

End ExactFacts.

(** Termination of the bisection when nothing is rounded. *)
Section Termination.

Local Open Scope Q_scope.

Context {T : Type} {scalar : Scalar T} {reading : Reading T}.
Variable label : ndarray Z -> ndarray nat * nat.
Variable landscape : ndarray T.
Variable axis : Z.
Variable conv : T.
Variable periodic : bool.

(** A property of the brackets under which the loop body returns and is
    exact, and that it keeps. *)
Variable kept : bracket T -> Prop.
Hypothesis kept_step :
  forall b, kept b -> open conv b = true ->
  exists b', step label landscape axis periodic b = Ok b' /\ kept b'.
Hypothesis kept_exact :
  forall b, kept b ->
  exact_test conv b /\ (open conv b = true -> exact_mid b).

(** The loop ends after the least number [n] of halvings that brings the
    width under the tolerance: [n] iterations are enough and fewer are not. *)
Lemma bisect_terminates (k : nat) (b : bracket T) :
  kept b -> width b / 2 ^ Z.of_nat k <= val conv ->
  exists n b',
    bisect label n landscape axis conv periodic b = Returned b' /\
    kept b' /\
    (forall m, (m < n)%nat ->
       bisect label m landscape axis conv periodic b = OutOfFuel) /\
    width b' == width b / 2 ^ Z.of_nat n /\
    width b' <= val conv /\
    (forall m, (m < n)%nat -> val conv < width b / 2 ^ Z.of_nat m).
Proof.
  revert b. induction k as [|k IH]; intros b Hkept Hk.
  - exists 0%nat, b. rewrite halved_zero in Hk.
    destruct (kept_exact Hkept) as [Htest _].
    assert (Hclosed : open conv b = false) by now apply closed_iff.
    cbn [bisect]. rewrite Hclosed. repeat split.
    + exact Hkept.
    + intros m Hm. lia.
    + now rewrite halved_zero.
    + exact Hk.
    + intros m Hm. lia.
  - destruct (kept_exact Hkept) as [Htest Hmid].
    destruct (open conv b) eqn:Hopen.
    + destruct (kept_step Hkept Hopen) as (b1 & Hstep & Hkept1).
      pose proof (@step_width T scalar reading label landscape axis periodic
                    b b1 (Hmid eq_refl) Hstep) as Hw.
      destruct (IH b1 Hkept1)
        as (n & b' & Hret & Hkept' & Hless & Hwidth & Hconv & Hmore).
      { rewrite Hw. now rewrite <- halved_succ. }
      exists (S n), b'. repeat split.
      * cbn [bisect]. now rewrite Hopen, Hstep.
      * exact Hkept'.
      * intros [|m] Hm; cbn [bisect]; rewrite Hopen; [reflexivity|].
        rewrite Hstep. apply Hless. lia.
      * now rewrite Hwidth, Hw, halved_succ.
      * exact Hconv.
      * intros [|m] Hm.
        -- rewrite halved_zero. now apply open_iff.
        -- rewrite halved_succ, <- Hw. apply Hmore. lia.
    + exists 0%nat, b. cbn [bisect]. rewrite Hopen. repeat split.
      * exact Hkept.
      * intros m Hm. lia.
      * now rewrite halved_zero.
      * now apply closed_iff.
      * intros m Hm. lia.
Qed.

End Termination.

(** ** Checking a run that returns *)

Section Traces.

Context {T : Type} {scalar : Scalar T}.
Variable label : ndarray Z -> ndarray nat * nat.
Variable landscape : ndarray T.
Variable axis : Z.
Variable conv : T.
Variable periodic : bool.

Lemma trace_head (n : nat) (b : bracket T) :
  In b (trace label n landscape axis conv periodic b).
Proof. destruct n; cbn [trace]; now left. Qed.

Lemma trace_closed (n : nat) (b0 bn b b' : bracket T) :
  bisect label n landscape axis conv periodic b0 = Returned bn ->
  In b (trace label n landscape axis conv periodic b0) ->
  open conv b = true -> step label landscape axis periodic b = Ok b' ->
  In b' (trace label n landscape axis conv periodic b0).
Proof.
  revert b0. induction n as [|n IH]; intros b0; cbn [bisect trace];
    destruct (open conv b0) eqn:H0; try discriminate.
  - intros _ [<- | []] Hopen. congruence.
  - destruct (step label landscape axis periodic b0) as [b1|e] eqn:Hstep;
      [|discriminate].
    intros Hret [<- | Hin] Hopen Hb.
    + right. rewrite Hstep in Hb. injection Hb as <-. apply trace_head.
    + right. now apply IH.
  - intros _ [<- | []] Hopen. congruence.
Qed.

(** The brackets of a run that returns are those of its trace. *)
Lemma visits_trace (n : nat) (b0 bn b : bracket T) :
  initial landscape = Ok b0 ->
  bisect label n landscape axis conv periodic b0 = Returned bn ->
  visits label landscape axis conv periodic b ->
  In b (trace label n landscape axis conv periodic b0).
Proof.
  intros H0 Hret. induction 1 as [b Hb | b b' Hb IH Hopen Hstep].
  - rewrite H0 in Hb. injection Hb as <-. apply trace_head.
  - now apply trace_closed with bn b.
Qed.

Lemma visits_along (n : nat) (bn : bracket T) (p : bracket T -> bool) :
  search label n landscape axis conv periodic = Returned bn ->
  along label n landscape axis conv periodic p = true ->
  forall b, visits label landscape axis conv periodic b -> p b = true.
Proof.
  unfold search, along.
  destruct (initial landscape) as [b0|e] eqn:H0; [|discriminate].
  intros Hret Hall b Hb. rewrite forallb_forall in Hall. apply Hall.
  now apply visits_trace with bn.
Qed.

Lemma checked_inside (n : nat) (bn : bracket T) :
  search label n landscape axis conv periodic = Returned bn ->
  along label n landscape axis conv periodic (centredb conv) = true ->
  midpoints_inside label landscape axis conv periodic.
Proof.
  intros Hret Hall b Hb Hopen.
  pose proof (@visits_along n bn _ Hret Hall b Hb) as H. unfold centredb in H.
  rewrite Hopen in H. cbn [negb orb] in H. now apply andb_true_iff in H.
Qed.

Context {reading : Reading T}.

Lemma checked_exact (n : nat) (bn : bracket T) :
  search label n landscape axis conv periodic = Returned bn ->
  along label n landscape axis conv periodic (exactb conv) = true ->
  unrounded label landscape axis conv periodic.
Proof.
  intros Hret Hall b Hb.
  pose proof (@visits_along n bn _ Hret Hall b Hb) as H.
  unfold exactb in H. apply andb_true_iff in H. destruct H as [Ht Hm].
  apply andb_true_iff in Ht. destruct Ht as [Hf Ht].
  split; [exact Hf|]. split; [now apply eqb_prop|].
  intros Hopen. rewrite Hopen in Hm. cbn [negb orb] in Hm.
  apply andb_true_iff in Hm. destruct Hm as [Hfm Hm].
  split; [exact Hfm | now apply Qeq_bool_iff].
Qed.

End Traces.

(** ** The search when nothing is rounded *)

Section ExactSearch.

Local Open Scope Q_scope.

Context {T : Type} {scalar : Scalar T} {ordered : Ordered T}
  {reading : Reading T} {faithful : Faithful T}.
Variable label : ndarray Z -> ndarray nat * nat.
Variable landscape : ndarray T.
Variable axis : Z.
Variable conv : T.
Variable periodic : bool.

(** When nothing percolates under the maximum, the search returns the
    maximum and no cluster. *)
Lemma never_percolates_returns (hi lo : T) :
  0 < val conv -> amax landscape = Ok hi -> amin landscape = Ok lo ->
  unrounded label landscape axis conv periodic ->
  never_percolates label landscape axis periodic lo hi ->
  exists n,
    percolation_threshold label n landscape axis conv periodic =
      Returned (hi, None) /\
    (forall m, (m < n)%nat ->
       percolation_threshold label m landscape axis conv periodic =
         OutOfFuel) /\
    (n = 0%nat <-> val hi - val lo <= val conv).
Proof.
  intros Hconv Hhi Hlo Hexact Hnever.
  pose proof (initial_extremes landscape Hhi Hlo) as H0.
  assert (Hfinite : finite hi = true /\ finite lo = true).
  { destruct (Hexact _ (visits_initial _ _ _ _ _ H0)) as (Hf & _).
    unfold finite_bracket in Hf.
    cbn [threshold_upper threshold_lower] in Hf.
    apply andb_true_iff in Hf. destruct Hf as [Hf Hl].
    apply andb_true_iff in Hf. destruct Hf as [_ Hu]. now split. }
  destruct Hfinite as [Fhi Flo].
  set (kept := fun b : bracket T =>
                 visits label landscape axis conv periodic b /\
                 val lo <= val (threshold_lower b) /\
                 threshold_upper b = hi /\ percolating_cluster b = None).
  assert (Hstep : forall b, kept b -> open conv b = true ->
            exists b', step label landscape axis periodic b = Ok b' /\
                       kept b').
  { intros b (Hb & Hl & Hup & Hnone) Hopen.
    destruct (Hexact b Hb) as (_ & Htest & Hmid).
    pose proof (mid_point_double (Hmid Hopen)) as Hdouble.
    pose proof (proj1 (open_iff Htest) Hopen) as Hwide. unfold width in Hwide.
    rewrite Hup in Hwide, Hdouble.
    destruct (Hmid Hopen) as [Fmid _].
    assert (Hbelow : sc_leb hi (mid_point b) = false).
    { rewrite (leb_val _ _ Fhi Fmid).
      apply not_true_iff_false. rewrite Qle_bool_iff. lra. }
    assert (Habove : sc_leb lo (mid_point b) = true).
    { rewrite (leb_val _ _ Flo Fmid). apply Qle_bool_iff. lra. }
    assert (Es : step label landscape axis periodic b =
                 Ok {| threshold_upper := threshold_upper b;
                       threshold_lower := mid_point b;
                       percolating_cluster := percolating_cluster b |}).
    { unfold step. now rewrite (Hnever (mid_point b) Habove Hbelow). }
    eexists. split; [exact Es|]. unfold kept.
    cbn [threshold_upper threshold_lower percolating_cluster].
    repeat split; try assumption; [|lra].
    now apply visits_step with b. }
  assert (Hkept : forall b, kept b ->
            exact_test conv b /\ (open conv b = true -> exact_mid b)).
  { intros b (Hb & _). now destruct (Hexact b Hb). }
  destruct (halvings_exist (val hi - val lo) Hconv) as [k Hk].
  destruct (@bisect_terminates T scalar reading label landscape axis conv
              periodic kept Hstep Hkept k
              {| threshold_upper := hi; threshold_lower := lo;
                 percolating_cluster := None |})
    as (n & b' & Hret & (_ & _ & Hup & Hnone) & Hless & Hwidth & Hclosed &
        Hmore).
  { unfold kept. cbn [threshold_upper threshold_lower percolating_cluster].
    repeat split; [now apply visits_initial | apply Qle_refl]. }
  { exact Hk. }
  exists n. unfold percolation_threshold, search. rewrite H0.
  repeat split.
  - rewrite Hret. now rewrite Hup, Hnone.
  - intros m Hm. now rewrite Hless.
  - intros ->. rewrite halved_zero in Hwidth. rewrite Hwidth in Hclosed.
    exact Hclosed.
  - intros Hsmall. destruct n as [|n]; [reflexivity|].
    specialize (Hmore 0%nat ltac:(lia)). rewrite halved_zero in Hmore.
    unfold width in Hmore. cbn in Hmore. lra.
Qed.

(** A retained cluster goes with a threshold under the maximum. *)
Lemma visits_cluster_or_max (hi : T) (b : bracket T) :
  0 <= val conv -> amax landscape = Ok hi ->
  unrounded label landscape axis conv periodic ->
  visits label landscape axis conv periodic b ->
  val (threshold_upper b) <= val hi /\
  ((percolating_cluster b = None /\ threshold_upper b = hi) \/
   (percolating_cluster b <> None /\ val (threshold_upper b) < val hi)).
Proof.
  intros Hconv Hhi Hexact. induction 1 as [b H0 | b b' Hb IH Hopen Hstep].
  - destruct (initial_cases _ H0) as (Hu & _ & Hnone).
    rewrite Hhi in Hu. injection Hu as ->.
    split; [apply Qle_refl | now left].
  - destruct IH as (Hu & Hcases).
    destruct (Hexact b Hb) as (_ & Htest & Hmid).
    pose proof (mid_point_double (Hmid Hopen)) as Hdouble.
    pose proof (proj1 (open_iff Htest) Hopen) as Hwide. unfold width in Hwide.
    destruct (@step_cases T scalar label landscape axis periodic b b' Hstep)
      as [(_ & Eu & El & Ec)|(f & _ & Eu & El & Ec)];
      rewrite Eu, Ec.
    + split; [exact Hu | exact Hcases].
    + split; [lra|]. right. split; [discriminate | lra].
Qed.

(** A run in which nothing is rounded keeps its midpoints between the ends
    of their brackets. *)
Lemma unrounded_inside (hi lo : T) :
  amax landscape = Ok hi -> amin landscape = Ok lo ->
  sc_leb lo hi = true ->
  unrounded label landscape axis conv periodic ->
  midpoints_inside label landscape axis conv periodic.
Proof.
  intros Hhi Hlo Hle Hexact.
  assert (Hends : forall b, visits label landscape axis conv periodic b ->
            finite (threshold_upper b) = true /\
            finite (threshold_lower b) = true).
  { intros b Hb. destruct (Hexact b Hb) as (Hf & _).
    unfold finite_bracket in Hf. apply andb_true_iff in Hf.
    destruct Hf as [Hf Hl]. apply andb_true_iff in Hf. now destruct Hf. }
  assert (Hinv : forall b, visits label landscape axis conv periodic b ->
            val (threshold_lower b) <= val (threshold_upper b)).
  { induction 1 as [b H0 | b b' Hb IH Hopen Hstep].
    - rewrite (initial_extremes landscape Hhi Hlo) in H0. injection H0 as <-.
      cbn [threshold_upper threshold_lower].
      destruct (Hends _ (visits_initial _ _ _ _ _
                           (initial_extremes landscape Hhi Hlo)))
        as [Fu Fl].
      cbn [threshold_upper threshold_lower] in Fu, Fl.
      apply Qle_bool_iff. now rewrite <- (leb_val _ _ Fl Fu).
    - destruct (Hexact b Hb) as (_ & _ & Hmid).
      pose proof (mid_point_double (Hmid Hopen)) as Hdouble.
      destruct (@step_cases T scalar label landscape axis periodic b b' Hstep)
        as [(_ & -> & -> & _)|(f & _ & -> & -> & _)]; lra. }
  intros b Hb Hopen. destruct (Hexact b Hb) as (_ & _ & Hmid).
  destruct (Hmid Hopen) as [Fmid _].
  pose proof (mid_point_double (Hmid Hopen)) as Hdouble.
  pose proof (Hinv b Hb) as Hlu. destruct (Hends b Hb) as [Fu Fl].
  split.
  - rewrite (leb_val _ _ Fl Fmid). apply Qle_bool_iff. lra.
  - rewrite (leb_val _ _ Fmid Fu). apply Qle_bool_iff. lra.
Qed.

End ExactSearch.

(** On a constant field the loop body is never run. *)
Lemma constant_returns {T : Type} {scalar : Scalar T} {ordered : Ordered T}
  (label : ndarray Z -> ndarray nat * nat) (landscape : ndarray T)
  (axis : Z) (conv : T) (periodic : bool) (c : T) :
  constant landscape c -> sc_gtb conv (sc_sub c c) = true ->
  percolation_threshold label 0 landscape axis conv periodic =
    Returned (c, None).
Proof.
  intros [Hne Hall] Hconv.
  unfold percolation_threshold, search, initial, amax, amin, reduce.
  destruct (ravel landscape) as [|x xs]; [contradiction|].
  inversion Hall as [|? ? Hx Hxs]; subst.
  rewrite (fold_max_constant Hxs), (fold_min_constant Hxs).
  cbn [bind bisect]. unfold open.
  cbn [threshold_upper threshold_lower]. now rewrite (gtb_asym _ _ Hconv).
Qed.

(** ** Labelling a checkerboard *)

Lemma update_length {A : Type} (l : list A) (n : nat) (g : A -> A) :
  length (SciPy.update l n g) = length l.
Proof.
  revert n. induction l as [|x l IH]; intros [|n]; cbn; auto.
Qed.

Lemma nth_update_same {A : Type} (l : list A) (n : nat) (g : A -> A) (d : A) :
  n < length l -> nth n (SciPy.update l n g) d = g (nth n l d).
Proof.
  revert n. induction l as [|x l IH]; intros [|n] H; cbn in *; try lia; auto.
  apply IH. lia.
Qed.

Lemma nth_update_other {A : Type} (l : list A) (n m : nat) (g : A -> A)
  (d : A) :
  m <> n -> nth m (SciPy.update l n g) d = nth m l d.
Proof.
  revert n m. induction l as [|x l IH]; intros [|n] [|m] H; cbn; auto; try lia.
Qed.

Lemma nth_update_out {A : Type} (l : list A) (n : nat) (g : A -> A) :
  length l <= n -> SciPy.update l n g = l.
Proof.
  revert n. induction l as [|x l IH]; intros [|n] H; cbn in *; auto; try lia.
  f_equal. apply IH. lia.
Qed.

(** Setting a label changes the cell it is set on, at most. *)
Lemma set_item_cases (lab : list (list nat)) (i j k i' j' : nat) :
  SciPy.label_of (SciPy.set_item lab i j k) i' j' = SciPy.label_of lab i' j' \/
  ((i', j') = (i, j) /\
   SciPy.label_of (SciPy.set_item lab i j k) i' j' = k).
Proof.
  unfold SciPy.label_of, SciPy.set_item.
  destruct (Nat.eq_dec i' i) as [->|Hi].
  - destruct (Nat.lt_ge_cases i (length lab)) as [Hlt|Hge].
    + rewrite nth_update_same by exact Hlt.
      destruct (Nat.eq_dec j' j) as [->|Hj].
      * destruct (Nat.lt_ge_cases j (length (nth i lab []))) as [Hlt'|Hge'].
        -- right. split; [reflexivity|]. now rewrite nth_update_same.
        -- left. now rewrite nth_update_out.
      * left. now rewrite nth_update_other.
    + left. now rewrite nth_update_out.
  - left. now rewrite nth_update_other.
Qed.

Lemma flood_background (fuel : nat) (img : list (list Z))
  (lab : list (list nat)) (k : nat) (work : list (nat * nat)) :
  (forall p, In p work -> SciPy.foreground img (fst p) (snd p) = false) ->
  SciPy.flood fuel img lab k work = lab.
Proof.
  revert work. induction fuel as [|fuel IH]; intros work H; cbn [SciPy.flood];
    [reflexivity|].
  destruct work as [|[i j] rest]; [reflexivity|].
  pose proof (H (i, j) (or_introl eq_refl)) as Hb. cbn [fst snd] in Hb.
  unfold SciPy.unlabelled. rewrite Hb. cbn [andb].
  apply IH. intros p Hp. apply H. now right.
Qed.

Lemma flood_sparse (fuel : nat) (img : list (list Z)) (lab : list (list nat))
  (k i j : nat) :
  sparse img -> SciPy.unlabelled img lab i j = true ->
  SciPy.flood (S fuel) img lab k [(i, j)] = SciPy.set_item lab i j k.
Proof.
  intros Hsparse Hun. cbn [SciPy.flood]. rewrite Hun.
  apply flood_background. intros p Hp. rewrite app_nil_r in Hp.
  apply andb_true_iff in Hun. destruct Hun as [Hfg _].
  now apply (Hsparse i j).
Qed.

Lemma distinct_set_item (lab : list (list nat)) (count i j : nat) :
  distinct lab count -> distinct (SciPy.set_item lab i j (S count)) (S count).
Proof.
  intros [Hle Hinj]. split.
  - intros a b. destruct (@set_item_cases lab i j (S count) a b)
      as [-> | [_ ->]]; [|lia]. specialize (Hle a b). lia.
  - intros a b a' b' Heq Hne.
    destruct (@set_item_cases lab i j (S count) a b) as [E | [P E]];
      destruct (@set_item_cases lab i j (S count) a' b') as [E' | [P' E']];
      rewrite E, E' in Heq; rewrite E in Hne.
    + now apply Hinj.
    + specialize (Hle a b). lia.
    + specialize (Hle a' b'). lia.
    + congruence.
Qed.

Lemma scan_distinct (fuel : nat) (img : list (list Z))
  (cells : list (nat * nat)) (lab : list (list nat)) (count : nat) :
  sparse img -> distinct lab count ->
  distinct (fst (SciPy.scan (S fuel) img cells lab count))
           (snd (SciPy.scan (S fuel) img cells lab count)).
Proof.
  intros Hsparse. revert lab count.
  induction cells as [|[i j] rest IH]; intros lab count Hd;
    cbn [SciPy.scan]; [exact Hd|].
  destruct (SciPy.unlabelled img lab i j) eqn:Hun.
  - rewrite (@flood_sparse fuel img lab (S count) i j Hsparse Hun).
    apply IH. now apply distinct_set_item.
  - now apply IH.
Qed.

Lemma flood_length (fuel : nat) (img : list (list Z)) (lab : list (list nat))
  (k : nat) (work : list (nat * nat)) :
  length (SciPy.flood fuel img lab k work) = length lab.
Proof.
  revert lab work. induction fuel as [|fuel IH]; intros lab work;
    cbn [SciPy.flood]; [reflexivity|].
  destruct work as [|[i j] rest]; [reflexivity|].
  destruct (SciPy.unlabelled img lab i j); rewrite IH; [|reflexivity].
  apply update_length.
Qed.

Lemma scan_length (fuel : nat) (img : list (list Z))
  (cells : list (nat * nat)) (lab : list (list nat)) (count : nat) :
  length (fst (SciPy.scan fuel img cells lab count)) = length lab.
Proof.
  revert lab count. induction cells as [|[i j] rest IH]; intros lab count;
    cbn [SciPy.scan]; [reflexivity|].
  destruct (SciPy.unlabelled img lab i j); rewrite IH; [|reflexivity].
  apply flood_length.
Qed.

Lemma label_of_blank (img : list (list Z)) (i j : nat) :
  SciPy.label_of (map (map (fun _ : Z => 0)) img) i j = 0.
Proof.
  unfold SciPy.label_of.
  change (@nil nat) with (map (fun _ : Z => 0) []).
  rewrite map_nth.
  change 0 with ((fun _ : Z => 0) 0%Z) at 2. now rewrite map_nth.
Qed.

(** On a sparse image every feature is a single cell. *)
Lemma label_distinct (image : ndarray Z) :
  sparse (cells image) ->
  distinct (cells (fst (SciPy.label image))) (snd (SciPy.label image)) /\
  length (cells (fst (SciPy.label image))) = length (cells image) /\
  nrows (fst (SciPy.label image)) = nrows image /\
  ncols (fst (SciPy.label image)) = ncols image.
Proof.
  intros Hsparse. unfold SciPy.label.
  set (fuel := 4 * (nrows image * ncols image)).
  set (raster := list_prod _ _). set (blank := map _ (cells image)).
  pose proof (@scan_distinct fuel (cells image) raster blank 0 Hsparse) as Hd.
  pose proof (@scan_length (S fuel) (cells image) raster blank 0) as Hl.
  destruct (SciPy.scan (S fuel) (cells image) raster blank 0) as [lab count].
  cbn [fst snd cells nrows ncols] in *. repeat split.
  - apply Hd. split.
    + intros i j. unfold blank. now rewrite label_of_blank.
    + intros i j i' j' _ H. unfold blank in H. now rewrite label_of_blank in H.
  - apply Hd. split.
    + intros i j. unfold blank. now rewrite label_of_blank.
    + intros i j i' j' _ H. unfold blank in H. now rewrite label_of_blank in H.
  - rewrite Hl. unfold blank. apply length_map.
Qed.

(** A feature of a label map without repeated labels has one cell at most. *)
Lemma item_amap_true {A : Type} (g : A -> bool) (d : A) (a : ndarray A)
  (i j : nat) :
  item false (amap g a) i j = true -> g (nth j (nth i (cells a) []) d) = true.
Proof.
  unfold item, amap. cbn [cells]. generalize (cells a) as rows.
  intros rows. revert i. induction rows as [|r rows IH]; intros [|i]; cbn;
    try (destruct j; discriminate); [|apply IH].
  clear IH. revert j. induction r as [|x r IH]; intros [|j]; cbn;
    try discriminate; [auto | apply IH].
Qed.

Lemma feature_at_most_one (features : ndarray nat) (count l : nat) :
  distinct (cells features) count -> at_most_one (feature features l).
Proof.
  intros [_ Hinj] i j i' j' H H'.
  apply (@item_amap_true nat _ 0) in H. apply (@item_amap_true nat _ 0) in H'.
  apply Nat.eqb_eq in H. apply Nat.eqb_eq in H'.
  apply Hinj; unfold SciPy.label_of; lia.
Qed.

(** A mask with one cell at most spans no grid of two columns along axis 0,
    and no grid of two rows along axis 1. *)
Lemma at_most_one_spans (f : ndarray bool) (axis : Z) :
  at_most_one f -> 2 <= ncols f -> 2 <= length (cells f) ->
  (axis = 0 \/ axis = 1)%Z -> spans_along f axis = false.
Proof.
  intros Hone HC HR Haxis. apply not_true_iff_false. intros Hspan.
  assert (Hcell : forall i j i' j',
            item false f i j = true -> item false f i' j' = true ->
            i = i' /\ j = j').
  { intros i j i' j' H H'. pose proof (Hone i j i' j' H H') as E.
    now injection E. }
  unfold spans_along, any_along in Hspan.
  destruct Haxis as [-> | ->]; cbn [Z.eqb Pos.eqb orb] in Hspan;
    unfold NumPy.all in Hspan; rewrite forallb_forall in Hspan.
  - assert (Hcol : forall j, j < ncols f ->
              exists i, item false f i j = true).
    { intros j Hj.
      assert (Hin : In (existsb (fun row => nth j row false) (cells f))
                       (any_axis0 f)).
      { unfold any_axis0. apply in_map_iff. exists j. split; [reflexivity|].
        apply in_seq. lia. }
      apply Hspan in Hin. apply existsb_exists in Hin.
      destruct Hin as (r & Hr & Hon).
      destruct (In_nth _ _ [] Hr) as (i & _ & Hi).
      exists i. unfold item. now rewrite Hi. }
    destruct (Hcol 0) as [i0 H0]; [lia|].
    destruct (Hcol 1) as [i1 H1]; [lia|].
    destruct (Hcell _ _ _ _ H0 H1) as [_ E]. discriminate.
  - assert (Hrow : forall i, i < length (cells f) ->
              exists j, item false f i j = true).
    { intros i Hi.
      assert (Hin : In (existsb (fun b => b) (nth i (cells f) []))
                       (any_axis1 f)).
      { unfold any_axis1. apply in_map. now apply nth_In. }
      apply Hspan in Hin. apply existsb_exists in Hin.
      destruct Hin as (b & Hb & ->).
      destruct (In_nth _ _ false Hb) as (j & _ & Hj).
      exists j. exact Hj. }
    destruct (Hrow 0) as [j0 H0]; [lia|].
    destruct (Hrow 1) as [j1 H1]; [lia|].
    destruct (Hcell _ _ _ _ H0 H1) as [E _]. discriminate.
Qed.

Lemma not_spanning_returns_false (f : ndarray bool) (axis : Z)
  (periodic : bool) :
  (axis = 0 \/ axis = 1)%Z -> spans_along f axis = false ->
  is_percolating f axis periodic = Ok false.
Proof.
  unfold spans_along, is_percolating, any_along.
  intros [-> | ->]; cbn [Z.eqb Pos.eqb orb bind]; now intros ->.
Qed.

Lemma first_percolating_none (features : ndarray nat) (axis : Z)
  (periodic : bool) (ls : list nat) :
  (axis = 0 \/ axis = 1)%Z ->
  (forall l, spans_along (feature features l) axis = false) ->
  first_percolating features axis periodic ls = Ok None.
Proof.
  intros Haxis H. induction ls as [|l ls IH]; cbn [first_percolating];
    [reflexivity|].
  rewrite (@not_spanning_returns_false (feature features l) axis periodic
             Haxis (H l)).
  exact IH.
Qed.

Lemma checker_cell {T : Type} (R C : nat) (origin : bool) (o x d : T)
  (i j : nat) :
  i < R -> j < C ->
  nth j (nth i (cells (checker R C origin o x)) []) d =
  if low origin i j then o else x.
Proof.
  intros Hi Hj. unfold checker, low. cbn [cells].
  rewrite (nth_indep _ [] (map (fun j => if Bool.eqb (Nat.even (0 + j)) origin
                                         then o else x) (seq 0 C)))
    by now rewrite length_map, length_seq.
  rewrite (map_nth (fun i => map (fun j => if Bool.eqb (Nat.even (i + j)) origin
                                  then o else x) (seq 0 C)) (seq 0 R) 0 i).
  rewrite seq_nth by exact Hi. cbn [Nat.add].
  rewrite (nth_indep _ d (if Bool.eqb (Nat.even (i + 0)) origin then o else x))
    by now rewrite length_map, length_seq.
  rewrite (map_nth (fun j => if Bool.eqb (Nat.even (i + j)) origin
                             then o else x) (seq 0 C) 0 j).
  now rewrite seq_nth by exact Hj.
Qed.

Lemma checker_outside (R C : nat) (origin : bool) (i j : nat) :
  R <= i \/ C <= j ->
  nth j (nth i (cells (checker R C origin 1%Z 0%Z)) []) 0%Z = 0%Z.
Proof.
  intros H. unfold checker. cbn [cells].
  destruct (Nat.lt_ge_cases i R) as [Hi|Hi].
  - destruct H as [H|H]; [lia|].
    rewrite (nth_indep _ [] (map (fun j => if Bool.eqb (Nat.even (0 + j)) origin
                                           then 1%Z else 0%Z) (seq 0 C)))
      by now rewrite length_map, length_seq.
    rewrite (map_nth (fun i => map (fun j =>
               if Bool.eqb (Nat.even (i + j)) origin then 1%Z else 0%Z)
               (seq 0 C)) (seq 0 R) 0 i).
    apply nth_overflow. now rewrite length_map, length_seq.
  - rewrite (nth_overflow _ []) by now rewrite length_map, length_seq.
    now destruct j.
Qed.

Lemma checker_foreground (R C : nat) (origin : bool) (i j : nat) :
  SciPy.foreground (cells (checker R C origin 1%Z 0%Z)) i j = true ->
  i < R /\ j < C /\ low origin i j = true.
Proof.
  unfold SciPy.foreground. intros H.
  destruct (Nat.lt_ge_cases i R) as [Hi|Hi];
    [destruct (Nat.lt_ge_cases j C) as [Hj|Hj]|].
  - rewrite (checker_cell origin 1%Z 0%Z 0%Z Hi Hj) in H.
    destruct (low origin i j); [auto|discriminate].
  - rewrite checker_outside in H by now right. discriminate.
  - rewrite checker_outside in H by now left. discriminate.
Qed.

Lemma low_neighbour (origin : bool) (i j : nat) (p : nat * nat) :
  low origin i j = true -> In p (SciPy.neighbours i j) ->
  low origin (fst p) (snd p) = false.
Proof.
  unfold low, SciPy.neighbours. intros Hlow Hp.
  apply eqb_prop in Hlow.
  assert (Hflip : forall n m, Nat.even n = origin ->
                              (m = S n \/ n = S m) ->
                              Bool.eqb (Nat.even m) origin = false).
  { intros n m En [-> | ->].
    - rewrite Nat.even_succ, <- Nat.negb_even, En. now destruct origin.
    - rewrite Nat.even_succ, <- Nat.negb_even in En. rewrite <- En.
      now destruct (Nat.even m). }
  repeat (apply in_app_or in Hp; destruct Hp as [Hp|Hp]).
  - destruct (i =? 0) eqn:E; [contradiction|]. apply Nat.eqb_neq in E.
    destruct Hp as [<-|[]]. cbn [fst snd].
    apply (Hflip (i + j)); [exact Hlow | lia].
  - destruct Hp as [<-|[]]. cbn [fst snd].
    apply (Hflip (i + j)); [exact Hlow | lia].
  - destruct (j =? 0) eqn:E; [contradiction|]. apply Nat.eqb_neq in E.
    destruct Hp as [<-|[]]. cbn [fst snd].
    apply (Hflip (i + j)); [exact Hlow | lia].
  - destruct Hp as [<-|[]]. cbn [fst snd].
    apply (Hflip (i + j)); [exact Hlow | lia].
Qed.

Lemma checker_sparse (R C : nat) (origin : bool) :
  sparse (cells (checker R C origin 1%Z 0%Z)).
Proof.
  intros i j Hfg p Hp.
  destruct (checker_foreground _ _ _ _ _ Hfg) as (Hi & Hj & Hlow).
  apply not_true_iff_false. intros Hfg'.
  destruct (checker_foreground _ _ _ _ _ Hfg') as (_ & _ & Hlow').
  rewrite (low_neighbour origin i j p Hlow Hp) in Hlow'. discriminate.
Qed.

Lemma checker_below {T : Type} {scalar : Scalar T} (R C : nat)
  (origin : bool) (lo hi mid : T) :
  sc_leb lo mid = true -> sc_leb hi mid = false ->
  below (checker R C origin lo hi) mid = checker R C origin 1%Z 0%Z.
Proof.
  intros Hlo Hhi. unfold below, astype_int, amap, checker.
  cbn [nrows ncols cells]. f_equal.
  rewrite !map_map. apply map_ext. intros i.
  rewrite !map_map. apply map_ext. intros j.
  destruct (Bool.eqb (Nat.even (i + j)) origin); [now rewrite Hlo|].
  now rewrite Hhi.
Qed.

(** On a checkerboard with two rows and two columns no feature spans. *)
Lemma checker_never_percolates {T : Type} {scalar : Scalar T} (R C : nat)
  (origin : bool) (lo hi : T) (axis : Z) (periodic : bool) :
  2 <= R -> 2 <= C -> (axis = 0 \/ axis = 1)%Z ->
  never_percolates SciPy.label (checker R C origin lo hi) axis periodic lo hi.
Proof.
  intros HR HC Haxis mid Hlo Hhi. unfold percolating_at.
  rewrite (@checker_below T scalar R C origin lo hi mid Hlo Hhi).
  destruct (@label_distinct (checker R C origin 1%Z 0%Z)
              (@checker_sparse R C origin))
    as (Hd & Hlen & Hrows & Hcols).
  destruct (SciPy.label (checker R C origin 1%Z 0%Z)) as [features labels].
  cbn [fst snd] in *.
  apply first_percolating_none; [exact Haxis|].
  intros l. apply at_most_one_spans; try assumption.
  - now apply feature_at_most_one with labels.
  - unfold feature, amap. cbn [ncols]. rewrite Hcols. exact HC.
  - unfold feature, amap. cbn [cells]. rewrite length_map, Hlen.
    unfold checker. cbn [cells]. now rewrite length_map, length_seq.
Qed.

Lemma checker_ravel {T : Type} (R C : nat) (origin : bool) (o x : T) :
  2 <= R -> 2 <= C ->
  In o (ravel (checker R C origin o x)) /\
  In x (ravel (checker R C origin o x)) /\
  (forall h, In h (ravel (checker R C origin o x)) -> h = o \/ h = x).
Proof.
  intros HR HC. unfold ravel.
  assert (Hcell : forall i j, i < R -> j < C ->
            In (if low origin i j then o else x)
               (concat (cells (checker R C origin o x)))).
  { intros i j Hi Hj. apply in_concat.
    exists (nth i (cells (checker R C origin o x)) []). split.
    - apply nth_In. unfold checker. cbn [cells].
      now rewrite length_map, length_seq.
    - rewrite <- (checker_cell origin o x o Hi Hj). apply nth_In.
      unfold checker. cbn [cells].
      rewrite (nth_indep _ [] (map (fun j =>
                 if Bool.eqb (Nat.even (0 + j)) origin then o else x)
                 (seq 0 C))) by now rewrite length_map, length_seq.
      rewrite (map_nth (fun i => map (fun j =>
                 if Bool.eqb (Nat.even (i + j)) origin then o else x)
                 (seq 0 C)) (seq 0 R) 0 i).
      now rewrite length_map, length_seq. }
  repeat split.
  - destruct origin.
    + apply (Hcell 0 0); lia.
    + apply (Hcell 0 1); lia.
  - destruct origin.
    + apply (Hcell 0 1); lia.
    + apply (Hcell 0 0); lia.
  - intros h Hh. apply in_concat in Hh. destruct Hh as (r & Hr & Hh).
    unfold checker in Hr. cbn [cells] in Hr. apply in_map_iff in Hr.
    destruct Hr as (i & <- & _). apply in_map_iff in Hh.
    destruct Hh as (j & <- & _).
    destruct (Bool.eqb (Nat.even (i + j)) origin); auto.
Qed.

(** The extremes of a list that holds [lo] and [hi] only. *)
Section TwoHeights.

Context {T : Type} {scalar : Scalar T} {ordered : Ordered T}.
Variable lo : T.
Variable hi : T.
Hypothesis above : sc_gtb hi lo = true.

Lemma fold_max_two (xs : list T) (x : T) :
  (forall h, In h (x :: xs) -> h = lo \/ h = hi) -> In hi (x :: xs) ->
  fold_left sc_max xs x = hi.
Proof.
  revert x. induction xs as [|y xs IH]; intros x Hall Hin; cbn [fold_left].
  - now destruct Hin as [-> | []].
  - destruct (max_gtb _ _ above) as [Hhl Hlh].
    assert (Hx : x = lo \/ x = hi) by (apply Hall; now left).
    assert (Hy : y = lo \/ y = hi) by (apply Hall; right; now left).
    apply IH.
    + intros h [<- | Hh]; [|apply Hall; right; now right].
      destruct (max_pick x y) as [-> | ->]; assumption.
    + destruct Hin as [<- | [<- | Hin]]; [| |now right]; left.
      * destruct Hy as [-> | ->]; [exact Hhl | apply max_idem].
      * destruct Hx as [-> | ->]; [exact Hlh | apply max_idem].
Qed.

Lemma fold_min_two (xs : list T) (x : T) :
  (forall h, In h (x :: xs) -> h = lo \/ h = hi) -> In lo (x :: xs) ->
  fold_left sc_min xs x = lo.
Proof.
  revert x. induction xs as [|y xs IH]; intros x Hall Hin; cbn [fold_left].
  - now destruct Hin as [-> | []].
  - destruct (min_gtb _ _ above) as [Hhl Hlh].
    assert (Hx : x = lo \/ x = hi) by (apply Hall; now left).
    assert (Hy : y = lo \/ y = hi) by (apply Hall; right; now left).
    apply IH.
    + intros h [<- | Hh]; [|apply Hall; right; now right].
      destruct (min_pick x y) as [-> | ->]; assumption.
    + destruct Hin as [<- | [<- | Hin]]; [| |now right]; left.
      * destruct Hy as [-> | ->]; [apply min_idem | exact Hlh].
      * destruct Hx as [-> | ->]; [apply min_idem | exact Hhl].
Qed.

Lemma checker_extremes (R C : nat) (origin : bool) :
  2 <= R -> 2 <= C ->
  amax (checker R C origin lo hi) = Ok hi /\
  amin (checker R C origin lo hi) = Ok lo.
Proof.
  intros HR HC.
  destruct (@checker_ravel T R C origin lo hi HR HC) as (Hlo & Hhi & Hall).
  unfold amax, amin, reduce.
  destruct (ravel (checker R C origin lo hi)) as [|x xs]; [contradiction|].
  split; f_equal; [now apply fold_max_two | now apply fold_min_two].
Qed.

End TwoHeights.

(** ** The claims *)

(** C1: for a mask of R rows and C columns and axis 0 or 1, [is_percolating]
    with [periodic=False] returns [True] exactly when the logical-OR
    reduction of the mask along the axis is all true, that is when every
    line of cells along the axis (every column for axis 0, every row for
    axis 1) holds an "on" cell; otherwise it returns [False]. *)
Theorem is_percolating_iff_spanning (f : ndarray bool) (axis : Z) :
  well_shaped f = true -> (axis = 0 \/ axis = 1)%Z ->
  exists spans,
    any_along f axis = Ok spans /\
    is_percolating f axis false = Ok (NumPy.all spans) /\
    (NumPy.all spans = true <-> spanning f axis).
Proof.
  intros Hf Haxis.
  pose proof (@percolating_free f axis Haxis) as Hfree.
  pose proof (@spans_along_spanning f axis Hf Haxis) as Hspan.
  unfold spans_along in Hfree, Hspan.
  destruct (any_along f axis) as [spans|e] eqn:Hany.
  - exists spans. auto.
  - destruct Haxis as [-> | ->]; discriminate.
Qed.

(** C1 on the diagonal mask, along axis 0. *)
Lemma is_percolating_iff_spanning_witness :
  exists spans,
    any_along diagonal 0 = Ok spans /\
    is_percolating diagonal 0 false = Ok (NumPy.all spans) /\
    (NumPy.all spans = true <-> spanning diagonal 0).
Proof.
  apply (@is_percolating_iff_spanning diagonal 0);
    [reflexivity | left; reflexivity].
Defined.

(** C2: for a spanning mask and axis 0 or 1, [is_percolating] with
    [periodic=True] returns [True] exactly when the two boundary slices
    along the axis (columns 0 and -1 for axis 0, rows 0 and -1 for axis 1)
    are both "on" at some position, and [False] when their AND is entirely
    false. *)
Theorem is_percolating_periodic_iff_wraps (f : ndarray bool) (axis : Z) :
  well_shaped f = true -> 1 <= nrows f -> 1 <= ncols f ->
  (axis = 0 \/ axis = 1)%Z -> spanning f axis ->
  exists b, is_percolating f axis true = Ok b /\ (b = true <-> wraps f axis).
Proof.
  intros Hf HR HC Haxis Hspan.
  apply percolating_wrapped; try assumption.
  now apply spans_along_spanning.
Qed.

(** C2 on the band mask, along axis 0. *)
Lemma is_percolating_periodic_iff_wraps_witness :
  exists b, is_percolating band 0 true = Ok b /\ (b = true <-> wraps band 0).
Proof.
  apply (@is_percolating_periodic_iff_wraps band 0);
    [reflexivity | cbn; lia | cbn; lia | left; reflexivity |].
  apply spans_along_spanning; [reflexivity | left; reflexivity | reflexivity].
Defined.




(** Exact halving asks for exact midpoints: in [float64], on the field
    [[0, 0.1]], the sum 0.1 + 0.05 is rounded, and the iteration that
    starts from the second bracket does not halve its width. The search
    still returns, after four iterations. *)
Lemma halving_rounds_float64 :
  visits SciPy.label shallow 0 hundredth false second /\
  open hundredth second = true /\
  (exists b, step SciPy.label shallow 0 false second = Ok b /\
             ~ (width b == width second / 2)%Q) /\
  exists b, search SciPy.label 4 shallow 0 hundredth false = Returned b.
Proof.
  split.
  - eapply visits_step;
      [apply visits_initial; vm_compute; reflexivity
      | vm_compute; reflexivity | vm_compute; reflexivity].
  - split; [vm_compute; reflexivity|]. split.
    + eexists. split; [vm_compute; reflexivity|].
      intros H. vm_compute in H. discriminate H.
    + eexists. vm_compute. reflexivity.
Qed.

(** C4, as the code has it: the axis message is raised exactly when
    [periodic=True], the axis is -1 or -2 (an axis NumPy accepts that is
    neither 0 nor 1) and the mask spans along it; a mask that does not span
    returns [False] for these axes, and an axis outside -2..1 makes the
    reduction raise NumPy's own axis error first. *)
Theorem axis_message_raised (f : ndarray bool) (axis : Z) (periodic : bool) :
  (is_percolating f axis periodic = Raise (ValueError axis_message) <->
     periodic = true /\ (axis = -1 \/ axis = -2)%Z /\
     spans_along f axis = true) /\
  (periodic = true /\ (axis = -1 \/ axis = -2)%Z /\
     spans_along f axis = false ->
     is_percolating f axis periodic = Ok false) /\
  ((axis < -2 \/ 1 < axis)%Z ->
     is_percolating f axis periodic = Raise (AxisError axis 2)).
Proof.
  destruct (is_percolating_cases f axis periodic)
    as [[Hax Hne] | [[Hax Heq] | [Hax Heq]]];
    (split; [split; [intros H | intros (Hp & Ha & Hs)]
            | split; [intros (Hp & Ha & Hs) | intros Ha]]);
    try lia; try contradiction; rewrite ?Heq in *.
  - destruct (spans_along f axis), periodic; try discriminate. auto.
  - now rewrite Hp, Hs.
  - now rewrite Hs.
  - discriminate.
  - reflexivity.
Qed.

(** C4 on the band mask: with [periodic=True] and axis -2 the axis
    message is raised. *)
Lemma axis_message_raised_witness :
  is_percolating band (-2) true = Raise (ValueError axis_message).
Proof.
  apply (proj1 (@axis_message_raised band (-2) true)).
  repeat split. now right.
Defined.

(** C4 as stated fails: with [periodic=True] and axis -1 a mask that does
    not span returns [False], no error is raised; and with axis 2 the error
    is NumPy's axis error, raised by the reduction. *)
Lemma axis_message_not_raised :
  (-1 <> 0)%Z /\ (-1 <> 1)%Z /\
  is_percolating dark (-1) true = Ok false /\
  is_percolating band 2 true = Raise (AxisError 2 2).
Proof.
  split; [discriminate|]. split; [discriminate|]. split; reflexivity.
Qed.

(** C5, as the code has it: on the 5x5 field whose row 2 is 0 and whose
    other cells are 10, with [conv = 0.01], the search along axis 0 returns,
    after exactly 10 iterations, the threshold 0.009765625 (within [conv] of
    0) and the mask of row 2; along axis 1 it returns the maximum 10 and no
    cluster. *)
Theorem trench_scenario :
  percolation_threshold SciPy.label 10 (trench 0 10)%float 0 hundredth false =
    Returned (0.009765625%float, Some trench_mask) /\
  percolation_threshold SciPy.label 9 (trench 0 10)%float 0 hundredth false =
    OutOfFuel /\
  PrimFloat.leb 0.009765625 hundredth = true /\
  single_full_row (astype_bool trench_mask) 2 /\
  percolation_threshold SciPy.label 10 (trench 0 10)%float 1 hundredth false =
    Returned (10%float, None).
Proof.
  repeat split; try (vm_compute; reflexivity); try (cbn; lia).
  intros i j Hi Hj. cbn in Hi, Hj.
  do 5 (destruct i as [|i];
        [do 5 (destruct j as [|j]; [reflexivity|]); lia|]).
  lia.
Qed.

(** C5 as stated fails: along axis 1 the row of zeros is not a spanning
    cluster; the threshold stays at the maximum 10 and no mask is returned. *)
Lemma trench_axis1 :
  percolation_threshold SciPy.label 10 (trench 0 10)%float 1 hundredth false =
    Returned (10%float, None) /\
  PrimFloat.ltb hundredth (10 - 0) = true.
Proof. split; vm_compute; reflexivity. Qed.

(** C6, as the code has it: on a checkerboard of two heights [lo < hi] with
    at least two rows and two columns, for [conv > 0] and axis 0 or 1, when
    nothing is rounded in the run (the numbers are finite, and each loop
    test and each midpoint is the exact one) the search returns the maximum
    [hi] itself and no cluster: every feature is a single cell, no midpoint
    reaches [hi], and the full grid is never tested. *)
Theorem checkerboard_returns_max {T : Type} {scalar : Scalar T}
  {ordered : Ordered T} {reading : Reading T} {faithful : Faithful T}
  (R C : nat) (origin : bool) (lo hi : T) (axis : Z) (conv : T)
  (periodic : bool) :
  2 <= R -> 2 <= C -> sc_gtb hi lo = true -> (0 < val conv)%Q ->
  (axis = 0 \/ axis = 1)%Z ->
  unrounded SciPy.label (checker R C origin lo hi) axis conv periodic ->
  exists n,
    percolation_threshold SciPy.label n (checker R C origin lo hi) axis conv
      periodic = Returned (hi, None) /\
    (forall m, m < n ->
       percolation_threshold SciPy.label m (checker R C origin lo hi) axis
         conv periodic = OutOfFuel).
Proof.
  intros HR HC Hgt Hconv Haxis Hexact.
  destruct (@checker_extremes T scalar ordered lo hi Hgt R C origin HR HC)
    as [Hhi Hlo].
  destruct (@never_percolates_returns T scalar reading faithful SciPy.label
              (checker R C origin lo hi) axis conv periodic hi lo Hconv Hhi
              Hlo Hexact
              (@checker_never_percolates T scalar R C origin lo hi axis
                 periodic HR HC Haxis))
    as (n & Hret & Hless & _).
  exists n. now split.
Qed.

(** C6 on the 4x4 checkerboard of 0 and 100 in [float64], along axis 0 with
    [conv = 1]: the seven midpoints of the run are exact. *)
Lemma checkerboard_returns_max_witness :
  exists n,
    percolation_threshold SciPy.label n (checkerboard 0 100)%float 0 1%float
      false = Returned (100%float, None) /\
    (forall m, m < n ->
       percolation_threshold SciPy.label m (checkerboard 0 100)%float 0
         1%float false = OutOfFuel).
Proof.
  change (checkerboard 0 100)%float with (checker 4 4 true 0 100)%float.
  apply (@checkerboard_returns_max float float64 float64_ordered
           float64_reading float64_faithful 4 4 true 0%float 100%float 0
           1%float false);
    [lia | lia | reflexivity | vm_compute; reflexivity | left; reflexivity |].
  apply (@checked_exact float float64 SciPy.label
           (checker 4 4 true 0 100)%float 0 1%float false float64_reading 7
           {| threshold_upper := 100%float;
              threshold_lower := 99.21875%float;
              percolating_cluster := None |});
    vm_compute; reflexivity.
Defined.

(** C6 as stated fails: with [float64] heights and [conv = 1] the search on
    the checkerboard returns 100 and no mask, not the full grid. *)
Lemma checkerboard_no_mask :
  PrimFloat.ltb 0 1 = true /\
  percolation_threshold SciPy.label 7 (checkerboard 0 100)%float 0 1%float
    false = Returned (100%float, None).
Proof. split; vm_compute; reflexivity. Qed.

(** With rounding the search on the checkerboard need not return: in
    [float64] with [conv = 2^-60] the bracket narrows to two neighbouring
    floats, its midpoint rounds to the maximum 100, where the full grid
    percolates, and the loop never ends. *)
Lemma checkerboard_never_returns :
  PrimFloat.ltb 0 tiny = true /\
  open tiny jammed = true /\
  step SciPy.label (checkerboard 0 100)%float 0 false jammed = Ok jammed /\
  forall fuel,
    percolation_threshold SciPy.label fuel (checkerboard 0 100)%float 0 tiny
      false = OutOfFuel.
Proof.
  split; [reflexivity|]. split; [vm_compute; reflexivity|].
  split; [vm_compute; reflexivity|].
  assert (H : forall b, initial (checkerboard 0 100)%float = Ok b ->
            forall n, bisect SciPy.label n (checkerboard 0 100)%float 0 tiny
                        false b = OutOfFuel).
  { intros b Hb. vm_compute in Hb. injection Hb as <-.
    repeat (eapply bisect_next;
            [vm_compute; reflexivity | vm_compute; reflexivity | ]).
    apply bisect_stuck; vm_compute; reflexivity. }
  intros fuel. unfold percolation_threshold, search.
  destruct (initial (checkerboard 0 100)%float) as [b|e] eqn:Hb;
    [|discriminate].
  now rewrite H.
Qed.

(** C7, as the code has it: a mask that is "on" exactly on one full row
    percolates along axis 0, without and with the periodic test: the row
    meets both the first and the last column. *)
Theorem single_full_row_percolates (f : ndarray bool) (r : nat)
  (periodic : bool) :
  single_full_row f r -> is_percolating f 0 periodic = Ok true.
Proof.
  intros (Hf & Hr & HC & Hon).
  assert (Hspan : spans_along f 0 = true).
  { apply spans_along_spanning; [assumption | now left |].
    unfold spanning. cbn [Z.eqb]. intros j Hj. exists r. split; [exact Hr|].
    rewrite (Hon r j Hr Hj). apply Nat.eqb_refl. }
  destruct periodic.
  - destruct (@percolating_wrapped f 0 Hf) as (b & Hb & Hiff);
      [lia | exact HC | now left | exact Hspan |].
    rewrite Hb. f_equal. apply Hiff. unfold wraps. cbn [Z.eqb].
    exists r. split; [exact Hr|].
    rewrite !Hon by lia. now rewrite Nat.eqb_refl.
  - rewrite percolating_free by now left. now rewrite Hspan.
Qed.

(** C7 on the band mask, with the periodic test. *)
Lemma single_full_row_percolates_witness :
  is_percolating band 0 true = Ok true.
Proof.
  apply (@single_full_row_percolates band 1 true), band_single_full_row.
Defined.

(** C7 as stated fails: the middle row of a 3x3 grid is neither its top nor
    its bottom row, and the periodic test along axis 0 still succeeds. *)
Lemma periodic_middle_row :
  single_full_row band 1 /\ ~ (1 = 0 /\ 1 = nrows band - 1) /\
  is_percolating band 0 true = Ok true.
Proof.
  split; [exact band_single_full_row|]. split; [lia|]. reflexivity.
Qed.




(** C9, as the code has it: on a constant field of height [c], with [conv]
    above [c - c] (that is with [conv > 0]), the loop body is not run at all
    and the result is the constant and no cluster; on a field where no
    feature percolates at any height under the maximum, with [conv > 0],
    when nothing is rounded in the run (the numbers are finite, and each
    loop test and each midpoint is the exact one), the result is the maximum
    and no cluster, the loop running at least once exactly when
    [max - min > conv]. *)
Theorem degenerate_field_no_cluster {T : Type} {scalar : Scalar T}
  {ordered : Ordered T} {reading : Reading T} {faithful : Faithful T}
  (label : ndarray Z -> ndarray nat * nat) (landscape : ndarray T)
  (axis : Z) (conv : T) (periodic : bool) :
  (forall c, constant landscape c -> sc_gtb conv (sc_sub c c) = true ->
     percolation_threshold label 0 landscape axis conv periodic =
       Returned (c, None)) /\
  (forall hi lo,
     amax landscape = Ok hi -> amin landscape = Ok lo ->
     (0 < val conv)%Q ->
     unrounded label landscape axis conv periodic ->
     never_percolates label landscape axis periodic lo hi ->
     exists n,
       percolation_threshold label n landscape axis conv periodic =
         Returned (hi, None) /\
       (forall m, m < n ->
          percolation_threshold label m landscape axis conv periodic =
            OutOfFuel) /\
       (n = 0 <-> (val hi - val lo <= val conv)%Q)).
Proof.
  split.
  - intros c Hc Hconv. now apply constant_returns.
  - intros hi lo Hhi Hlo Hconv Hexact Hnever.
    now apply never_percolates_returns.
Qed.

(** C9 in [float64] with [conv = 1]: on the constant field of 5 no
    iteration is run, and on the checkerboard of 0 and 100 the search
    returns the maximum and no cluster. *)
Lemma degenerate_field_no_cluster_witness :
  percolation_threshold SciPy.label 0 (flat 5%float) 0 1%float false =
    Returned (5%float, None) /\
  (exists n,
     percolation_threshold SciPy.label n (checkerboard 0 100)%float 0 1%float
       false = Returned (100%float, None) /\
     (forall m, m < n ->
        percolation_threshold SciPy.label m (checkerboard 0 100)%float 0
          1%float false = OutOfFuel) /\
     (n = 0 <-> (val 100%float - val 0%float <= val 1%float)%Q)).
Proof.
  split.
  - apply (proj1 (@degenerate_field_no_cluster float float64 float64_ordered
                    float64_reading float64_faithful SciPy.label
                    (flat 5%float) 0 1%float false) 5%float); [|reflexivity].
    split; [discriminate|]. repeat constructor.
  - apply (proj2 (@degenerate_field_no_cluster float float64 float64_ordered
                    float64_reading float64_faithful SciPy.label
                    (checkerboard 0 100)%float 0 1%float false)
             100%float 0%float);
      [reflexivity | reflexivity | vm_compute; reflexivity | |].
    + apply (@checked_exact float float64 SciPy.label
               (checkerboard 0 100)%float 0 1%float false float64_reading 7
               {| threshold_upper := 100%float;
                  threshold_lower := 99.21875%float;
                  percolating_cluster := None |});
        vm_compute; reflexivity.
    + change (checkerboard 0 100)%float with (checker 4 4 true 0 100)%float.
      apply checker_never_percolates; [lia | lia | now left].
Defined.

(** C9 as stated fails: on a constant field [max - min = 0] is not above
    [conv], and the search returns without a single iteration. *)
Lemma flat_no_iteration :
  PrimFloat.ltb 0 1 = true /\
  percolation_threshold SciPy.label 0 (flat 5%float) 0 1%float false =
    Returned (5%float, None).
Proof. split; vm_compute; reflexivity. Qed.




(** ** Further properties of [is_percolating] *)

Lemma percolating_spans (f : ndarray bool) (axis : Z) (periodic : bool) :
  is_percolating f axis periodic = Ok true -> spans_along f axis = true.
Proof.
  unfold is_percolating, spans_along.
  destruct (any_along f axis) as [spans|e]; cbn [bind]; [|discriminate].
  destruct (NumPy.all spans); [reflexivity | discriminate].
Qed.

(** X1: a mask with no "on" cell does not percolate. *)
Theorem empty_mask_never_percolates (f : ndarray bool) (axis : Z)
  (periodic : bool) :
  well_shaped f = true -> 1 <= nrows f -> 1 <= ncols f ->
  (axis = 0 \/ axis = 1)%Z -> all_off f ->
  is_percolating f axis periodic = Ok false.
Proof.
  intros Hf HR HC Haxis Hoff.
  apply not_spanning_returns_false; [exact Haxis|].
  apply not_true_iff_false. intros Hspan.
  apply (@spans_along_spanning f axis Hf Haxis) in Hspan.
  unfold spanning in Hspan. destruct Haxis as [-> | ->]; cbn [Z.eqb] in Hspan.
  - destruct (Hspan 0 HC) as (i & Hi & Hon).
    rewrite (Hoff i 0 Hi HC) in Hon. discriminate.
  - destruct (Hspan 0 HR) as (j & Hj & Hon).
    rewrite (Hoff 0 j HR Hj) in Hon. discriminate.
Qed.

Lemma empty_mask_never_percolates_witness :
  is_percolating dark 1 true = Ok false.
Proof.
  apply (@empty_mask_never_percolates dark 1 true);
    [reflexivity | cbn; lia | cbn; lia | right; reflexivity |].
  intros i j Hi Hj. cbn in Hi, Hj.
  destruct i as [|i]; [|lia]. destruct j as [|j]; [reflexivity|lia].
Defined.

(** X2: a mask with every cell "on" percolates, with the periodic test
    too. *)
Theorem full_mask_percolates (f : ndarray bool) (axis : Z) (periodic : bool) :
  well_shaped f = true -> 1 <= nrows f -> 1 <= ncols f ->
  (axis = 0 \/ axis = 1)%Z -> all_on f ->
  is_percolating f axis periodic = Ok true.
Proof.
  intros Hf HR HC Haxis Hon.
  assert (Hspan : spans_along f axis = true).
  { apply (@spans_along_spanning f axis Hf Haxis). unfold spanning.
    destruct Haxis as [-> | ->]; cbn [Z.eqb].
    - intros j Hj. exists 0. split; [exact HR|]. now apply Hon.
    - intros i Hi. exists 0. split; [exact HC|]. now apply Hon. }
  destruct periodic.
  - destruct (@percolating_wrapped f axis Hf HR HC Haxis Hspan)
      as (b & Hb & Hiff).
    rewrite Hb. f_equal. apply Hiff. unfold wraps.
    destruct Haxis as [-> | ->]; cbn [Z.eqb].
    + exists 0. split; [exact HR|]. split; apply Hon; lia.
    + exists 0. split; [exact HC|]. split; apply Hon; lia.
  - rewrite (@percolating_free f axis Haxis). now rewrite Hspan.
Qed.

Lemma full_mask_percolates_witness :
  is_percolating (array [[true; true]; [true; true]]) 0 true = Ok true.
Proof.
  apply (@full_mask_percolates (array [[true; true]; [true; true]]) 0 true);
    [reflexivity | cbn; lia | cbn; lia | left; reflexivity |].
  intros i j Hi Hj. cbn in Hi, Hj.
  do 2 (destruct i as [|i]; [do 2 (destruct j as [|j]; [reflexivity|]); lia|]).
  lia.
Defined.

(** X3: the periodic test only adds a requirement: a mask that percolates
    with it percolates without it, whatever the axis. *)
Theorem periodic_is_stricter (f : ndarray bool) (axis : Z) :
  is_percolating f axis true = Ok true ->
  is_percolating f axis false = Ok true.
Proof.
  intros H. pose proof (@percolating_spans f axis true H) as Hspan.
  unfold is_percolating. unfold spans_along in Hspan.
  destruct (any_along f axis) as [spans|e]; [|discriminate].
  cbn [bind]. now rewrite Hspan.
Qed.

Lemma periodic_is_stricter_witness : is_percolating band 0 false = Ok true.
Proof. apply (@periodic_is_stricter band 0). reflexivity. Defined.

Lemma covers_spanning (f g : ndarray bool) (axis : Z) :
  covers f g -> spanning f axis -> spanning g axis.
Proof.
  intros (HR & HC & Hcov). unfold spanning.
  destruct (axis =? 0)%Z; intros H k Hk.
  - rewrite <- HC in Hk. destruct (H k Hk) as (i & Hi & Hon).
    exists i. split; [now rewrite <- HR | now apply Hcov].
  - rewrite <- HR in Hk. destruct (H k Hk) as (j & Hj & Hon).
    exists j. split; [now rewrite <- HC | now apply Hcov].
Qed.

Lemma covers_wraps (f g : ndarray bool) (axis : Z) :
  covers f g -> 1 <= nrows f -> 1 <= ncols f -> wraps f axis -> wraps g axis.
Proof.
  intros (HR & HC & Hcov) H1 H2. unfold wraps.
  destruct (axis =? 0)%Z; intros (k & Hk & Ha & Hb).
  - exists k. rewrite <- HR, <- HC. split; [exact Hk|].
    split; apply Hcov; try assumption; lia.
  - exists k. rewrite <- HR, <- HC. split; [exact Hk|].
    split; apply Hcov; try assumption; lia.
Qed.

(** X4: turning cells "on" keeps a percolating mask percolating. *)
Theorem more_cells_still_percolate (f g : ndarray bool) (axis : Z)
  (periodic : bool) :
  well_shaped f = true -> well_shaped g = true ->
  1 <= nrows f -> 1 <= ncols f -> (axis = 0 \/ axis = 1)%Z ->
  covers f g ->
  is_percolating f axis periodic = Ok true ->
  is_percolating g axis periodic = Ok true.
Proof.
  intros Hf Hg HR HC Haxis Hcov H.
  pose proof Hcov as (ER & EC & _).
  pose proof (@percolating_spans f axis periodic H) as Hspan.
  assert (Hspan' : spans_along g axis = true).
  { apply (@spans_along_spanning g axis Hg Haxis).
    apply (@covers_spanning f g axis Hcov).
    now apply (@spans_along_spanning f axis Hf Haxis). }
  destruct periodic.
  - destruct (@percolating_wrapped f axis Hf HR HC Haxis Hspan)
      as (b & Hb & Hiff).
    rewrite Hb in H. injection H as ->.
    destruct (@percolating_wrapped g axis Hg) as (b' & Hb' & Hiff');
      [lia | lia | exact Haxis | exact Hspan' |].
    rewrite Hb'. f_equal. apply Hiff'.
    apply (@covers_wraps f g axis Hcov HR HC). now apply Hiff.
  - rewrite (@percolating_free g axis Haxis). now rewrite Hspan'.
Qed.

Lemma more_cells_still_percolate_witness :
  is_percolating (array [[false; true; false]; [true; true; true];
                         [false; false; false]]) 0 true = Ok true.
Proof.
  apply (@more_cells_still_percolate band
           (array [[false; true; false]; [true; true; true];
                   [false; false; false]]) 0 true);
    [reflexivity | reflexivity | cbn; lia | cbn; lia | left; reflexivity
    | | reflexivity].
  split; [reflexivity|]. split; [reflexivity|].
  intros i j Hi Hj. cbn in Hi, Hj.
  do 3 (destruct i as [|i];
        [do 3 (destruct j as [|j]; [cbn; auto|]); lia|]).
  lia.
Defined.

Lemma index_empty (i : Z) : index 0 i = Raise (IndexError i 0).
Proof.
  unfold index. cbn [Z.of_nat Z.opp].
  assert (E : ((0 <=? i)%Z && (i <? 0)%Z) = false).
  { apply not_true_iff_false. intros H. apply andb_true_iff in H.
    destruct H as [H0 H1]. apply Z.leb_le in H0. apply Z.ltb_lt in H1. lia. }
  now rewrite E.
Qed.

Lemma index_bound (n : nat) (i : Z) (k : nat) : index n i = Ok k -> k < n.
Proof.
  unfold index.
  destruct ((0 <=? i)%Z && (i <? Z.of_nat n)%Z) eqn:E.
  - apply andb_true_iff in E. destruct E as [E0 E1].
    apply Z.leb_le in E0. apply Z.ltb_lt in E1.
    intros H. injection H as <-. lia.
  - destruct ((- Z.of_nat n <=? i)%Z && (i <? 0)%Z) eqn:E'; [|discriminate].
    apply andb_true_iff in E'. destruct E' as [E0 E1].
    apply Z.leb_le in E0. apply Z.ltb_lt in E1.
    intros H. injection H as <-. lia.
Qed.

(** X5: when the predicate raises. An axis outside -2..1 always does; the
    other failures need the periodic test and a spanning mask: the axes -1
    and -2, and a grid with no column (axis 0) or no row (axis 1). *)
Theorem is_percolating_raises_iff (f : ndarray bool) (axis : Z)
  (periodic : bool) :
  raises (is_percolating f axis periodic) <->
  (axis < -2 \/ 1 < axis)%Z \/
  (periodic = true /\ spans_along f axis = true /\
   ((axis = -1 \/ axis = -2)%Z \/ (axis = 0%Z /\ ncols f = 0) \/
    (axis = 1%Z /\ nrows f = 0))).
Proof.
  unfold raises.
  destruct (is_percolating_cases f axis periodic)
    as [[Hax _] | [[Hax Heq] | [Hax Heq]]].
  - (* axis 0 or 1 *)
    unfold is_percolating, spans_along, any_along, column, row.
    destruct Hax as [-> | ->]; cbn [Z.eqb Pos.eqb orb bind].
    + destruct (NumPy.all (any_axis0 f)).
      * destruct periodic.
        -- destruct (ncols f) as [|c] eqn:EC.
           ++ rewrite index_empty. cbn [bind]. split; [intros _|eauto].
              right. repeat split. right. left. now split.
           ++ rewrite (@index_first (S c)), (@index_last (S c)) by lia.
              cbn [bind]. split.
              ** intros [e He]. revert He. case_tests; discriminate.
              ** intros [H | (_ & _ & [H | [[_ H] | [H _]]])];
                   try lia; discriminate.
        -- split; [intros [e He]; discriminate|].
           intros [H | (H & _)]; [lia | discriminate].
      * split; [intros [e He]; discriminate|].
        intros [H | (_ & H & _)]; [lia | discriminate].
    + destruct (NumPy.all (any_axis1 f)).
      * destruct periodic.
        -- destruct (nrows f) as [|r] eqn:ER.
           ++ rewrite index_empty. cbn [bind]. split; [intros _|eauto].
              right. repeat split. right. right. now split.
           ++ rewrite (@index_first (S r)), (@index_last (S r)) by lia.
              cbn [bind]. split.
              ** intros [e He]. revert He. case_tests; discriminate.
              ** intros [H | (_ & _ & [H | [[H _] | [_ H]]])];
                   try lia; discriminate.
        -- split; [intros [e He]; discriminate|].
           intros [H | (H & _)]; [lia | discriminate].
      * split; [intros [e He]; discriminate|].
        intros [H | (_ & H & _)]; [lia | discriminate].
  - rewrite Heq. split.
    + intros [e He]. right.
      destruct (spans_along f axis), periodic; try discriminate.
      repeat split. now left.
    + intros [H | (-> & -> & _)]; [lia | eauto].
  - rewrite Heq. split; [intros _; now left | eauto].
Qed.

(** X6: on a grid with no column the reduction along axis 0 is empty, and
    all of nothing is true: the mask percolates along axis 0, and the
    periodic test fails on the index of the first column. The same holds
    for a grid with no row along axis 1. *)
Theorem degenerate_grid (f : ndarray bool) :
  (ncols f = 0 ->
     is_percolating f 0 false = Ok true /\
     is_percolating f 0 true = Raise (IndexError 0 0)) /\
  (nrows f = 0 -> cells f = [] ->
     is_percolating f 1 false = Ok true /\
     is_percolating f 1 true = Raise (IndexError 0 0)).
Proof.
  split.
  - intros HC. unfold is_percolating, any_along, any_axis0, column.
    rewrite HC. cbn. split; reflexivity.
  - intros HR Hcells. unfold is_percolating, any_along, any_axis1, row.
    rewrite HR, Hcells. cbn. split; reflexivity.
Qed.

Lemma degenerate_grid_witness :
  is_percolating {| nrows := 2; ncols := 0; cells := [[]; []] |} 0 false =
    Ok true /\
  is_percolating {| nrows := 2; ncols := 0; cells := [[]; []] |} 0 true =
    Raise (IndexError 0 0).
Proof.
  apply (proj1 (@degenerate_grid {| nrows := 2; ncols := 0;
                                    cells := [[]; []] |})).
  reflexivity.
Defined.

Lemma existsb_map {A B : Type} (g : A -> B) (p : B -> bool) (l : list A) :
  existsb p (map g l) = existsb (fun x => p (g x)) l.
Proof. induction l as [|x l IH]; cbn; [reflexivity | now rewrite IH]. Qed.

Lemma transpose_row (f : ndarray bool) (j : nat) :
  j < ncols f ->
  nth j (cells (transpose f)) [] = map (fun row => nth j row false) (cells f).
Proof.
  intros Hj. unfold transpose. cbn [cells].
  rewrite (nth_indep _ [] (map (fun row => nth 0 row false) (cells f)))
    by now rewrite length_map, length_seq.
  rewrite (map_nth (fun j => map (fun row => nth j row false) (cells f))
             (seq 0 (ncols f)) 0 j).
  now rewrite seq_nth.
Qed.

Lemma transpose_any (f : ndarray bool) : any_axis1 (transpose f) = any_axis0 f.
Proof.
  unfold any_axis1, any_axis0, transpose. cbn [cells].
  rewrite map_map. apply map_ext. intros j. apply existsb_map.
Qed.

Lemma transpose_slice (f : ndarray bool) (k : Z) :
  row (transpose f) k = column f k.
Proof.
  unfold row, column. cbn [nrows transpose].
  destruct (index (ncols f) k) as [j|e] eqn:E; cbn [bind]; [|reflexivity].
  now rewrite (@transpose_row f j (@index_bound (ncols f) k j E)).
Qed.

Lemma existsb_pointwise {A : Type} (p q : A -> bool) (l : list A) :
  (forall x, p x = q x) -> existsb p l = existsb q l.
Proof.
  intros H. induction l as [|x l IH]; cbn; [reflexivity|].
  now rewrite H, IH.
Qed.

Lemma map_nth_seq (l : list bool) :
  map (fun j => nth j l false) (seq 0 (length l)) = l.
Proof.
  induction l as [|x l IH]; cbn [length seq map]; [reflexivity|].
  cbn [nth]. f_equal. rewrite <- seq_shift, map_map. exact IH.
Qed.

Lemma existsb_nth_seq (l : list bool) :
  existsb (fun j => nth j l false) (seq 0 (length l)) =
  existsb (fun b => b) l.
Proof.
  rewrite <- (existsb_map (fun j => nth j l false) (fun b => b)).
  now rewrite map_nth_seq.
Qed.

Lemma transpose_any_rows (f : ndarray bool) :
  well_shaped f = true -> any_axis0 (transpose f) = any_axis1 f.
Proof.
  intros Hf. unfold any_axis0, any_axis1, transpose. cbn [cells ncols].
  rewrite <- (@shape_rows f Hf).
  assert (Hrows : forall i, i < length (cells f) ->
            existsb (fun col => nth i col false)
              (map (fun j => map (fun row => nth j row false) (cells f))
                   (seq 0 (ncols f))) =
            existsb (fun b => b) (nth i (cells f) [])).
  { intros i Hi. rewrite existsb_map.
    rewrite <- (@shape_cols f Hf i) by (now rewrite <- (@shape_rows f Hf)).
    rewrite <- existsb_nth_seq. apply existsb_pointwise. intros j.
    apply nth_map_column. }
  clear Hf. revert Hrows. generalize (ncols f) as C.
  generalize (cells f) as rows. intros rows C Hrows.
  apply nth_ext with (d := false) (d' := false).
  - now rewrite !length_map, length_seq.
  - intros i Hi. rewrite length_map, length_seq in Hi.
    rewrite (nth_indep _ false
               ((fun i => existsb (fun col => nth i col false)
                   (map (fun j => map (fun row => nth j row false) rows)
                        (seq 0 C))) 0))
      by now rewrite length_map, length_seq.
    rewrite (map_nth (fun i => existsb (fun col => nth i col false)
                   (map (fun j => map (fun row => nth j row false) rows)
                        (seq 0 C))) (seq 0 (length rows)) 0 i).
    rewrite seq_nth by exact Hi. cbn [Nat.add].
    rewrite (Hrows i Hi).
    rewrite (nth_indep _ false (existsb (fun b => b) []))
      by now rewrite length_map.
    now rewrite (map_nth (existsb (fun b => b)) rows [] i).
Qed.

Lemma transpose_slice_rows (f : ndarray bool) (k : Z) :
  well_shaped f = true -> column (transpose f) k = row f k.
Proof.
  intros Hf. unfold row, column. cbn [ncols transpose cells].
  destruct (index (nrows f) k) as [i|e] eqn:E; cbn [bind]; [|reflexivity].
  f_equal. rewrite map_map.
  rewrite <- (@shape_cols f Hf i (@index_bound (nrows f) k i E)).
  rewrite <- (map_nth_seq (nth i (cells f) [])) at 2.
  apply map_ext. intros j. apply nth_map_column.
Qed.

(** X7: the two axes are symmetric: testing the transposed mask along one
    axis is testing the mask along the other, errors included. *)
Theorem transpose_swaps_axes (f : ndarray bool) (periodic : bool) :
  is_percolating (transpose f) 1 periodic = is_percolating f 0 periodic /\
  (well_shaped f = true ->
   is_percolating (transpose f) 0 periodic = is_percolating f 1 periodic).
Proof.
  split.
  - unfold is_percolating, any_along. cbn [Z.eqb Pos.eqb orb bind].
    rewrite transpose_any, !transpose_slice. reflexivity.
  - intros Hf. unfold is_percolating, any_along.
    cbn [Z.eqb Pos.eqb orb bind].
    rewrite (@transpose_any_rows f Hf).
    rewrite (@transpose_slice_rows f 0 Hf), (@transpose_slice_rows f (-1) Hf).
    reflexivity.
Qed.

Lemma transpose_swaps_axes_witness :
  is_percolating (transpose band) 0 true = is_percolating band 1 true.
Proof.
  apply (proj2 (@transpose_swaps_axes band true)). reflexivity.
Defined.

(** X8: without the periodic test the axes -2 and -1 stand for 0 and 1;
    with it they never return [True]. *)
Theorem negative_axes (f : ndarray bool) :
  is_percolating f (-2) false = is_percolating f 0 false /\
  is_percolating f (-1) false = is_percolating f 1 false /\
  is_percolating f (-2) true <> Ok true /\
  is_percolating f (-1) true <> Ok true.
Proof.
  unfold is_percolating, any_along. cbn [Z.eqb Pos.eqb orb bind].
  repeat split.
  - destruct (NumPy.all (any_axis0 f)); discriminate.
  - destruct (NumPy.all (any_axis1 f)); discriminate.
Qed.

(** ** Further properties of [percolation_threshold] *)

(** X9: a field without cells has no maximum: the search raises NumPy's
    error for the reduction of an empty array, before any iteration. *)
Theorem empty_field_raises {T : Type} {scalar : Scalar T}
  (label : ndarray Z -> ndarray nat * nat) (landscape : ndarray T)
  (axis : Z) (conv : T) (periodic : bool) (fuel : nat) :
  ravel landscape = [] ->
  percolation_threshold label fuel landscape axis conv periodic =
    Raised (ValueError
      "zero-size array to reduction operation maximum which has no identity").
Proof.
  intros H. unfold percolation_threshold, search, initial, amax, reduce.
  now rewrite H.
Qed.

Lemma empty_field_raises_witness :
  percolation_threshold SciPy.label 3
    {| nrows := 0; ncols := 4; cells := [] |} 0 1%float false =
    Raised (ValueError
      "zero-size array to reduction operation maximum which has no identity").
Proof.
  apply (@empty_field_raises float float64 SciPy.label
           {| nrows := 0; ncols := 4; cells := [] |} 0 1%float false 3).
  reflexivity.
Defined.

Lemma first_percolating_from (features : ndarray nat) (axis : Z)
  (periodic : bool) (s n : nat) (f : ndarray bool) :
  first_percolating features axis periodic (seq s n) = Ok (Some f) <->
  exists l, s <= l < s + n /\ f = feature features l /\
    is_percolating (feature features l) axis periodic = Ok true /\
    forall l', s <= l' < l ->
      is_percolating (feature features l') axis periodic = Ok false.
Proof.
  revert s. induction n as [|n IH]; intros s; cbn [seq first_percolating].
  - split; [discriminate|]. intros (l & Hl & _). lia.
  - destruct (is_percolating (feature features s) axis periodic)
      as [[|]|e] eqn:Hs; cbn [bind].
    + split.
      * intros H. injection H as <-. exists s. repeat split; try lia.
        exact Hs.
      * intros (l & Hl & -> & Hp & Hbefore).
        destruct (Nat.eq_dec l s) as [->|Hne]; [reflexivity|].
        rewrite (Hbefore s) in Hs by lia. discriminate.
    + rewrite IH. split.
      * intros (l & Hl & -> & Hp & Hbefore). exists l.
        repeat split; try lia; [exact Hp|].
        intros l' Hl'. destruct (Nat.eq_dec l' s) as [->|Hne]; [exact Hs|].
        apply Hbefore. lia.
      * intros (l & Hl & -> & Hp & Hbefore).
        destruct (Nat.eq_dec l s) as [->|Hne]; [congruence|].
        exists l. repeat split; try lia; [exact Hp|].
        intros l' Hl'. apply Hbefore. lia.
    + split; [discriminate|].
      intros (l & Hl & -> & Hp & Hbefore).
      destruct (Nat.eq_dec l s) as [->|Hne]; [congruence|].
      rewrite (Hbefore s) in Hs by lia. discriminate.
Qed.

(** X10: the [for] loop breaks at the first percolating feature: the mask it
    yields is the feature of least number that percolates, every feature
    before it having been tested and found not to. *)
Theorem first_feature_wins (features : ndarray nat) (axis : Z)
  (periodic : bool) (labels : nat) (f : ndarray bool) :
  first_percolating features axis periodic (seq 0 labels) = Ok (Some f) <->
  exists l, l < labels /\ f = feature features l /\
    is_percolating (feature features l) axis periodic = Ok true /\
    forall l', l' < l ->
      is_percolating (feature features l') axis periodic = Ok false.
Proof.
  rewrite first_percolating_from. split.
  - intros (l & Hl & Hf & Hp & Hbefore). exists l.
    repeat split; try lia; try assumption. intros l' Hl'. apply Hbefore. lia.
  - intros (l & Hl & Hf & Hp & Hbefore). exists l.
    repeat split; try lia; try assumption. intros l' Hl'. apply Hbefore. lia.
Qed.

(** X11: what a returned search has established. The loop test is false at
    the last bracket; the returned threshold is the maximum of the field,
    with no cluster, or a height at which the returned cluster is the first
    percolating feature; and the lower end of the bracket is the minimum of
    the field or a height at which no feature percolates. *)
Theorem returned_bracket {T : Type} {scalar : Scalar T}
  (label : ndarray Z -> ndarray nat * nat) (landscape : ndarray T)
  (axis : Z) (conv : T) (periodic : bool) (n : nat) (b : bracket T) :
  search label n landscape axis conv periodic = Returned b ->
  exists hi lo,
    amax landscape = Ok hi /\ amin landscape = Ok lo /\
    percolation_threshold label n landscape axis conv periodic =
      Returned (threshold_upper b, percolating_cluster b) /\
    open conv b = false /\
    ((percolating_cluster b = None /\ threshold_upper b = hi) \/
     (exists f,
        percolating_at label landscape axis periodic (threshold_upper b) =
          Ok (Some f) /\
        percolating_cluster b = Some (astype_int f))) /\
    (threshold_lower b = lo \/
     percolating_at label landscape axis periodic (threshold_lower b) =
       Ok None).
Proof.
  intros Hs.
  destruct (@search_visits T scalar label landscape axis conv periodic n b Hs)
    as [Hb Hclosed].
  unfold percolation_threshold. rewrite Hs.
  unfold search in Hs.
  destruct (initial landscape) as [b0|e] eqn:H0; [|discriminate].
  pose proof (@visits_brackets T scalar label landscape axis conv periodic
                b0 b H0 Hb) as [Hup Hlow].
  unfold initial in H0.
  destruct (amax landscape) as [hi|]; [|discriminate].
  destruct (amin landscape) as [lo|]; [|discriminate].
  cbn [bind] in H0. injection H0 as <-. cbn in Hup, Hlow.
  exists hi, lo. repeat split; assumption.
Qed.

Lemma returned_bracket_witness :
  exists hi lo,
    amax (trench 0 10)%float = Ok hi /\ amin (trench 0 10)%float = Ok lo /\
    percolation_threshold SciPy.label 10 (trench 0 10)%float 0 hundredth
      false =
      Returned (threshold_upper trench_bracket,
                percolating_cluster trench_bracket) /\
    open hundredth trench_bracket = false /\
    ((percolating_cluster trench_bracket = None /\
      threshold_upper trench_bracket = hi) \/
     (exists f,
        percolating_at SciPy.label (trench 0 10)%float 0 false
          (threshold_upper trench_bracket) = Ok (Some f) /\
        percolating_cluster trench_bracket = Some (astype_int f))) /\
    (threshold_lower trench_bracket = lo \/
     percolating_at SciPy.label (trench 0 10)%float 0 false
       (threshold_lower trench_bracket) = Ok None).
Proof.
  apply (@returned_bracket float float64 SciPy.label (trench 0 10)%float 0
           hundredth false 10 trench_bracket).
  vm_compute. reflexivity.
Defined.

(** X12: the bisection is accurate. When features percolate exactly at the
    heights that a finite height [h] is at most, between the minimum and
    the maximum of the field, and nothing is rounded in the run (the
    numbers are finite, and each loop test and each midpoint is the exact
    one), the search with [conv > 0] returns a threshold between [h] and
    [h + conv]. *)
Theorem bisection_accurate {T : Type} {scalar : Scalar T}
  {reading : Reading T} {faithful : Faithful T}
  (label : ndarray Z -> ndarray nat * nat)
  (landscape : ndarray T) (axis : Z) (conv : T) (periodic : bool)
  (hi lo h : T) :
  (0 < val conv)%Q -> amax landscape = Ok hi -> amin landscape = Ok lo ->
  finite h = true -> (val lo <= val h)%Q -> (val h <= val hi)%Q ->
  unrounded label landscape axis conv periodic ->
  critical label landscape axis periodic h ->
  exists n t c,
    percolation_threshold label n landscape axis conv periodic =
      Returned (t, c) /\
    (val h <= val t)%Q /\ (val t <= val h + val conv)%Q /\
    (forall m, m < n ->
       percolation_threshold label m landscape axis conv periodic =
         OutOfFuel).
Proof.
  intros Hconv Hhi Hlo Hfinite Hlh Hhh Hexact Hcrit.
  pose proof (initial_extremes landscape Hhi Hlo) as H0.
  set (kept := fun b : bracket T =>
                 visits label landscape axis conv periodic b /\
                 (val (threshold_lower b) <= val h)%Q /\
                 (val h <= val (threshold_upper b))%Q).
  assert (Hstep : forall b, kept b -> open conv b = true ->
            exists b', step label landscape axis periodic b = Ok b' /\
                       kept b').
  { intros b (Hb & Hlow & Hup) Hopen.
    destruct (Hexact b Hb) as (_ & _ & Hmid).
    destruct (Hmid Hopen) as [Fmid _].
    pose proof (leb_val _ _ Hfinite Fmid) as Hcmp.
    destruct (Hcrit (mid_point b)) as [Hunder Hover]. unfold step.
    destruct (sc_leb h (mid_point b)) eqn:Hle.
    - destruct (Hover eq_refl) as [f Hf]. rewrite Hf. cbn [bind].
      eexists. split; [reflexivity|]. unfold kept.
      cbn [threshold_upper threshold_lower percolating_cluster].
      repeat split; try assumption.
      + apply visits_step with b; try assumption. unfold step.
        now rewrite Hf.
      + now apply Qle_bool_iff.
    - rewrite (Hunder eq_refl). cbn [bind].
      eexists. split; [reflexivity|]. unfold kept.
      cbn [threshold_upper threshold_lower percolating_cluster].
      repeat split; try assumption.
      + apply visits_step with b; try assumption. unfold step.
        now rewrite (Hunder eq_refl).
      + apply Qlt_le_weak, Qnot_le_lt. intros H.
        apply Qle_bool_iff in H. congruence. }
  assert (Hkept : forall b, kept b ->
            exact_test conv b /\ (open conv b = true -> exact_mid b)).
  { intros b (Hb & _). now destruct (Hexact b Hb). }
  destruct (halvings_exist (val hi - val lo) Hconv) as [k Hk].
  destruct (@bisect_terminates T scalar reading label landscape axis conv
              periodic kept Hstep Hkept k
              {| threshold_upper := hi; threshold_lower := lo;
                 percolating_cluster := None |})
    as (n & b' & Hret & (_ & Hlow & Hup) & Hless & _ & Hclosed & _).
  { unfold kept. cbn [threshold_upper threshold_lower percolating_cluster].
    repeat split; try assumption. now apply visits_initial. }
  { exact Hk. }
  exists n, (threshold_upper b'), (percolating_cluster b').
  unfold percolation_threshold, search. rewrite H0, Hret.
  unfold width in Hclosed. repeat split; try lra.
  intros m Hm. now rewrite Hless.
Qed.

Lemma stairs_critical : critical SciPy.label stairs 0 false 5%float.
Proof.
  assert (H05 : forall m, PrimFloat.leb 5 m = true ->
                          PrimFloat.leb 0 m = true).
  { intros m. now apply (@leb_trans float float64 float64_ordered
                           0%float 5%float m). }
  assert (H510 : forall m, PrimFloat.leb 10 m = true ->
                           PrimFloat.leb 5 m = true).
  { intros m. now apply (@leb_trans float float64 float64_ordered
                           5%float 10%float m). }
  intros mid. unfold percolating_at, below, astype_int, amap, stairs.
  unfold array. cbn [nrows ncols cells map List.length sc_leb float64].
  destruct (PrimFloat.leb 5 mid) eqn:H5.
  - rewrite (H05 mid H5).
    destruct (PrimFloat.leb 10 mid); (split; [discriminate|]); intros _;
      eexists; vm_compute; reflexivity.
  - assert (H10 : PrimFloat.leb 10 mid = false).
    { apply not_true_iff_false. intros H. apply H510 in H. congruence. }
    rewrite H10.
    destruct (PrimFloat.leb 0 mid); (split; [|discriminate]); intros _;
      vm_compute; reflexivity.
Qed.

Lemma bisection_accurate_witness :
  exists n t c,
    percolation_threshold SciPy.label n stairs 0 hundredth false =
      Returned (t, c) /\
    (val 5%float <= val t)%Q /\ (val t <= val 5%float + val hundredth)%Q /\
    (forall m, m < n ->
       percolation_threshold SciPy.label m stairs 0 hundredth false =
         OutOfFuel).
Proof.
  apply (@bisection_accurate float float64 float64_reading float64_faithful
           SciPy.label stairs 0 hundredth false 10%float 0%float 5%float);
    [vm_compute; reflexivity | reflexivity | reflexivity | reflexivity
    | vm_compute; discriminate | vm_compute; discriminate |
    | exact stairs_critical].
  apply (@checked_exact float float64 SciPy.label stairs 0 hundredth false
           float64_reading 10
           {| threshold_upper := 5%float;
              threshold_lower := 4.990234375%float;
              percolating_cluster := Some (array [[1; 1]; [0; 0]]%Z) |});
    vm_compute; reflexivity.
Defined.

Section AxisFacts.

Context {T : Type} {scalar : Scalar T}.
Variable label : ndarray Z -> ndarray nat * nat.
Variable landscape : ndarray T.
Variable conv : T.

Lemma first_percolating_never (features : ndarray nat) (axis : Z)
  (periodic : bool) (ls : list nat) (f : ndarray bool) :
  (forall g, is_percolating g axis periodic <> Ok true) ->
  first_percolating features axis periodic ls <> Ok (Some f).
Proof.
  intros Hnever. induction ls as [|l ls IH]; cbn [first_percolating];
    [discriminate|].
  destruct (is_percolating (feature features l) axis periodic)
    as [[|]|e] eqn:Hp; cbn [bind]; [|exact IH|discriminate].
  now apply Hnever in Hp.
Qed.

Lemma visits_no_cluster (axis : Z) (periodic : bool) (b0 b : bracket T) :
  (forall g, is_percolating g axis periodic <> Ok true) ->
  initial landscape = Ok b0 ->
  visits label landscape axis conv periodic b ->
  percolating_cluster b = None /\ threshold_upper b = threshold_upper b0.
Proof.
  intros Hnever H0 Hb.
  destruct (@visits_brackets T scalar label landscape axis conv periodic
              b0 b H0 Hb) as [[H | (f & Hf & _)] _]; [exact H|].
  unfold percolating_at in Hf.
  destruct (label (below landscape (threshold_upper b))) as [features labels].
  now apply first_percolating_never in Hf.
Qed.

Lemma first_percolating_same (features : ndarray nat) (axis axis' : Z)
  (periodic : bool) (ls : list nat) :
  (forall g, is_percolating g axis periodic =
             is_percolating g axis' periodic) ->
  first_percolating features axis periodic ls =
  first_percolating features axis' periodic ls.
Proof.
  intros Hsame. induction ls as [|l ls IH]; cbn [first_percolating];
    [reflexivity|].
  now rewrite Hsame, IH.
Qed.

Lemma bisect_same (axis axis' : Z) (periodic : bool) (n : nat)
  (b : bracket T) :
  (forall g, is_percolating g axis periodic =
             is_percolating g axis' periodic) ->
  bisect label n landscape axis conv periodic b =
  bisect label n landscape axis' conv periodic b.
Proof.
  intros Hsame.
  assert (Hstep : forall b, step label landscape axis periodic b =
                            step label landscape axis' periodic b).
  { intros b1. unfold step, percolating_at.
    destruct (label (below landscape (mid_point b1))) as [features labels].
    now rewrite (@first_percolating_same features axis axis' periodic
                   (seq 0 labels) Hsame). }
  revert b. induction n as [|n IH]; intros b; cbn [bisect]; [reflexivity|].
  rewrite Hstep. destruct (open conv b); [|reflexivity].
  destruct (step label landscape axis' periodic b); [apply IH|reflexivity].
Qed.

End AxisFacts.

Lemma never_true_outside (axis : Z) (periodic : bool) :
  axis <> 0%Z -> axis <> 1%Z ->
  periodic = true \/ (axis < -2)%Z \/ (1 < axis)%Z ->
  forall g, is_percolating g axis periodic <> Ok true.
Proof.
  intros H0 H1 Hor g.
  destruct (is_percolating_cases g axis periodic)
    as [[Hax _] | [[Hax Heq] | [Hax Heq]]]; [lia| |]; rewrite Heq.
  - destruct Hor as [-> | Hor]; [|lia].
    destruct (spans_along g axis); discriminate.
  - discriminate.
Qed.

(** X14: an axis other than 0 and 1 never yields a cluster when the
    periodic test is on or the axis is outside -2..1: the predicate then
    raises or returns [False], so a search that returns has kept the
    maximum of the field as its threshold and found no cluster. *)
Theorem invalid_axis_no_cluster {T : Type} {scalar : Scalar T}
  (label : ndarray Z -> ndarray nat * nat) (landscape : ndarray T)
  (axis : Z) (conv : T) (periodic : bool) (n : nat) (t : T)
  (c : option (ndarray Z)) :
  axis <> 0%Z -> axis <> 1%Z ->
  periodic = true \/ (axis < -2)%Z \/ (1 < axis)%Z ->
  percolation_threshold label n landscape axis conv periodic =
    Returned (t, c) ->
  c = None /\ amax landscape = Ok t.
Proof.
  intros H0 H1 Hor. unfold percolation_threshold.
  destruct (search label n landscape axis conv periodic) as [b| |] eqn:Hs;
    try discriminate.
  intros H. injection H as <- <-.
  destruct (@search_visits T scalar label landscape axis conv periodic n b Hs)
    as [Hb _].
  unfold search in Hs.
  destruct (initial landscape) as [b0|e] eqn:Hi; [|discriminate].
  destruct (@visits_no_cluster T scalar label landscape conv axis periodic
              b0 b (never_true_outside H0 H1 Hor) Hi Hb) as [Hnone Hup].
  split; [exact Hnone|]. rewrite Hup.
  unfold initial in Hi.
  destruct (amax landscape) as [hi|]; [|discriminate].
  destruct (amin landscape) as [lo|]; [|discriminate].
  cbn [bind] in Hi. now injection Hi as <-.
Qed.

Lemma invalid_axis_no_cluster_witness :
  @None (ndarray Z) = None /\
  amax (checkerboard 0 100)%float = Ok 100%float.
Proof.
  apply (@invalid_axis_no_cluster float float64 SciPy.label
           (checkerboard 0 100)%float (-1) 1%float true 7 100%float None);
    [discriminate | discriminate | left; reflexivity
    | vm_compute; reflexivity].
Defined.

Lemma negative_axis_alias (g : ndarray bool) :
  is_percolating g (-2) false = is_percolating g 0 false /\
  is_percolating g (-1) false = is_percolating g 1 false.
Proof.
  unfold is_percolating, any_along. cbn [Z.eqb Pos.eqb orb bind].
  now split.
Qed.

(** X15: without the periodic test, the search along the axis -2 is the
    search along the axis 0, and along -1 it is the search along 1. *)
Theorem negative_axis_search {T : Type} {scalar : Scalar T}
  (label : ndarray Z -> ndarray nat * nat) (landscape : ndarray T)
  (conv : T) (n : nat) :
  percolation_threshold label n landscape (-2) conv false =
    percolation_threshold label n landscape 0 conv false /\
  percolation_threshold label n landscape (-1) conv false =
    percolation_threshold label n landscape 1 conv false.
Proof.
  unfold percolation_threshold, search.
  destruct (initial landscape) as [b|e]; [|now split].
  split.
  - now rewrite (@bisect_same T scalar label landscape conv (-2) 0 false n b
                   (fun g => proj1 (negative_axis_alias g))).
  - now rewrite (@bisect_same T scalar label landscape conv (-1) 1 false n b
                   (fun g => proj2 (negative_axis_alias g))).
Qed.

Lemma periodic_returns_open (g : ndarray bool) (axis : Z) (b : bool) :
  is_percolating g axis true = Ok b ->
  exists b', is_percolating g axis false = Ok b' /\ (b = true -> b' = true).
Proof.
  unfold is_percolating.
  destruct (any_along g axis) as [spans|e]; cbn [bind]; [|discriminate].
  destruct (NumPy.all spans).
  - intros _. now exists true.
  - intros H. injection H as <-. exists false. split; [reflexivity|].
    discriminate.
Qed.

Lemma first_percolating_open (features : ndarray nat) (axis : Z)
  (ls : list nat) (f : ndarray bool) :
  first_percolating features axis true ls = Ok (Some f) ->
  exists f', first_percolating features axis false ls = Ok (Some f').
Proof.
  induction ls as [|l ls IH]; cbn [first_percolating]; [discriminate|].
  destruct (is_percolating (feature features l) axis true) as [b|e] eqn:Hp;
    cbn [bind]; [|discriminate].
  destruct (@periodic_returns_open _ axis b Hp) as (b' & Hp' & Himp).
  rewrite Hp'. cbn [bind]. destruct b.
  - rewrite (Himp eq_refl). eauto.
  - destruct b'; eauto.
Qed.

Section PeriodicFacts.

Context {T : Type} {scalar : Scalar T} {ordered : Ordered T}.
Variable label : ndarray Z -> ndarray nat * nat.
Variable landscape : ndarray T.
Variable axis : Z.
Variable conv : T.

Lemma percolating_at_open (mid : T) (f : ndarray bool) :
  percolating_at label landscape axis true mid = Ok (Some f) ->
  exists f', percolating_at label landscape axis false mid = Ok (Some f').
Proof.
  unfold percolating_at. destruct (label (below landscape mid)).
  apply first_percolating_open.
Qed.

Variable lo : T.
Variable hi : T.
Hypothesis bounded :
  forall periodic b, visits label landscape axis conv periodic b ->
                     within lo hi b.
Hypothesis inside :
  forall periodic, midpoints_inside label landscape axis conv periodic.

(** Along a run the upper end only goes down and the lower end only goes
    up. *)
Lemma bisect_monotone (periodic : bool) (n : nat) (b b' : bracket T) :
  visits label landscape axis conv periodic b ->
  bisect label n landscape axis conv periodic b = Returned b' ->
  sc_leb (threshold_upper b') (threshold_upper b) = true /\
  sc_leb (threshold_lower b) (threshold_lower b') = true.
Proof.
  assert (Hclosed : forall b, visits label landscape axis conv periodic b ->
            sc_leb (threshold_upper b) (threshold_upper b) = true /\
            sc_leb (threshold_lower b) (threshold_lower b) = true).
  { intros b0 Hb0. destruct (bounded Hb0) as (Hl & _ & Hu).
    split; [now destruct (leb_refl _ _ Hu) | now destruct (leb_refl _ _ Hl)]. }
  revert b. induction n as [|n IH]; intros b Hb; cbn [bisect];
    destruct (open conv b) eqn:Hopen; try discriminate;
    try (intros H; injection H as <-; now apply Hclosed).
  destruct (step label landscape axis periodic b) as [b1|e] eqn:Hstep;
    [|discriminate].
  intros Hret.
  destruct (IH b1 (visits_step Hb Hopen Hstep) Hret) as [Hu Hl].
  destruct (inside Hb Hopen) as [Hm1 Hm2].
  destruct (@step_cases T scalar label landscape axis periodic b b1 Hstep)
    as [(_ & Eu & El & _)|(f & _ & Eu & El & _)]; rewrite Eu in Hu;
    rewrite El in Hl; split; try assumption.
  - now apply leb_trans with (mid_point b).
  - now apply leb_trans with (mid_point b).
Qed.

(** The two searches go through the same brackets until the periodic test
    refuses a height that percolates without it; from then on the bracket
    of the periodic search lies above the other one. *)
Lemma paired_bisect (n : nat) (bp bn bp' bn' : bracket T) :
  visits label landscape axis conv true bp ->
  visits label landscape axis conv false bn ->
  threshold_upper bp = threshold_upper bn ->
  threshold_lower bp = threshold_lower bn ->
  bisect label n landscape axis conv true bp = Returned bp' ->
  bisect label n landscape axis conv false bn = Returned bn' ->
  sc_leb (threshold_upper bn') (threshold_upper bp') = true.
Proof.
  assert (Hclosed : forall bp bn,
            visits label landscape axis conv true bp ->
            threshold_upper bp = threshold_upper bn ->
            sc_leb (threshold_upper bn) (threshold_upper bp) = true).
  { intros bp0 bn0 Hp Eu. rewrite <- Eu.
    destruct (bounded Hp) as (_ & _ & Hu). now destruct (leb_refl _ _ Hu). }
  revert bp bn. induction n as [|n IH]; intros bp bn Hp Hn Eu El;
    cbn [bisect];
    (assert (Hopen : open conv bn = open conv bp)
       by (unfold open; now rewrite Eu, El));
    rewrite Hopen; destruct (open conv bp) eqn:Op; try discriminate;
    try (intros H H'; injection H as <-; injection H' as <-;
         now apply Hclosed).
  destruct (step label landscape axis true bp) as [bp1|] eqn:Sp;
    [|discriminate].
  destruct (step label landscape axis false bn) as [bn1|] eqn:Sn;
    [|discriminate].
  intros Rp Rn.
  assert (Emid : mid_point bn = mid_point bp)
    by (unfold mid_point; now rewrite Eu, El).
  pose proof (visits_step Hp Op Sp) as Hp1.
  pose proof (visits_step Hn Hopen Sn) as Hn1.
  destruct (@step_cases T scalar label landscape axis true bp bp1 Sp)
    as [(Fp & Up & Lp & _)|(fp & Fp & Up & Lp & _)];
    destruct (@step_cases T scalar label landscape axis false bn bn1 Sn)
      as [(Fn & Un & Ln & _)|(fn & Fn & Un & Ln & _)];
    rewrite Emid in *.
  - apply (IH bp1 bn1); congruence.
  - destruct (bisect_monotone n Hp1 Rp) as [_ Hlow].
    destruct (bisect_monotone n Hn1 Rn) as [Hup _].
    destruct (@bisect_visits T scalar label landscape axis conv true n bp1
                bp' Hp1 Rp) as [Hp' _].
    destruct (bounded Hp') as (_ & Hle & _).
    rewrite Un in Hup. rewrite Lp in Hlow.
    apply leb_trans with (mid_point bp); [exact Hup|].
    now apply leb_trans with (threshold_lower bp').
  - destruct (percolating_at_open _ Fp) as [f' Hf']. congruence.
  - apply (IH bp1 bn1); congruence.
Qed.

End PeriodicFacts.

(** X16: asking for a periodic cluster never lowers the threshold. On a
    field without a NaN, when the midpoints of the two runs lie between the
    ends of their brackets and the search returns with and without the
    periodic test, the threshold found with the test is at least the one
    found without. *)
Theorem periodic_threshold_higher {T : Type} {scalar : Scalar T}
  {ordered : Ordered T} (label : ndarray Z -> ndarray nat * nat)
  (landscape : ndarray T) (axis : Z) (conv : T) (n m : nat)
  (tp tn : T) (cp cn : option (ndarray Z)) :
  no_nan landscape = true ->
  midpoints_inside label landscape axis conv true ->
  midpoints_inside label landscape axis conv false ->
  percolation_threshold label n landscape axis conv true =
    Returned (tp, cp) ->
  percolation_threshold label m landscape axis conv false =
    Returned (tn, cn) ->
  sc_leb tn tp = true.
Proof.
  intros Hnan Hin_p Hin_n. unfold percolation_threshold, search.
  destruct (initial landscape) as [b0|e] eqn:H0; [|discriminate].
  destruct (bisect label n landscape axis conv true b0) as [bp| |] eqn:Hp;
    try discriminate.
  destruct (bisect label m landscape axis conv false b0) as [bn| |] eqn:Hn;
    try discriminate.
  intros H H'. injection H as <- _. injection H' as <- _.
  destruct (initial_cases _ H0) as (Hhi & Hlo & _).
  pose proof (extremes_ordered landscape Hnan Hhi Hlo) as Hle.
  apply (@paired_bisect T scalar ordered label landscape axis conv
           (threshold_lower b0) (threshold_upper b0)
           (fun periodic b Hb =>
              @visits_within T scalar ordered label landscape axis conv
                periodic (threshold_lower b0) (threshold_upper b0) b Hhi Hlo
                Hle (if periodic return midpoints_inside label landscape
                                          axis conv periodic
                     then Hin_p else Hin_n) Hb)
           (fun periodic => if periodic return midpoints_inside label
                                                 landscape axis conv periodic
                            then Hin_p else Hin_n)
           (Nat.max n m) b0 b0 bp bn);
    try reflexivity; try (now apply visits_initial).
  - apply (@bisect_more_fuel T scalar label landscape axis conv true n
             (Nat.max n m) b0 bp Hp). lia.
  - apply (@bisect_more_fuel T scalar label landscape axis conv false m
             (Nat.max n m) b0 bn Hn). lia.
Qed.

Lemma periodic_threshold_higher_witness :
  sc_leb 0.5625%float 9%float = true.
Proof.
  apply (@periodic_threshold_higher float float64 float64_ordered SciPy.label
           zigzag 0 1%float 4 4 9%float 0.5625%float None
           (Some (array [[1; 1; 0]; [0; 1; 1]]%Z)));
    [reflexivity | | | vm_compute; reflexivity | vm_compute; reflexivity].
  - apply (@checked_inside float float64 SciPy.label zigzag 0 1%float true 4
             {| threshold_upper := 9%float;
                threshold_lower := 8.4375%float;
                percolating_cluster := None |}); vm_compute; reflexivity.
  - apply (@checked_inside float float64 SciPy.label zigzag 0 1%float false 4
             {| threshold_upper := 0.5625%float;
                threshold_lower := 0%float;
                percolating_cluster :=
                  Some (array [[1; 1; 0]; [0; 1; 1]]%Z) |});
      vm_compute; reflexivity.
Defined.

(** ** The cluster and the field *)

Lemma flood_foreground (fuel : nat) (img : list (list Z))
  (lab : list (list nat)) (k : nat) (work : list (nat * nat)) :
  (forall i j, SciPy.label_of lab i j <> 0 ->
               SciPy.foreground img i j = true) ->
  forall i j, SciPy.label_of (SciPy.flood fuel img lab k work) i j <> 0 ->
              SciPy.foreground img i j = true.
Proof.
  revert lab work. induction fuel as [|fuel IH]; intros lab work Hlab;
    cbn [SciPy.flood]; [exact Hlab|].
  destruct work as [|[a b] rest]; [exact Hlab|].
  destruct (SciPy.unlabelled img lab a b) eqn:Hun; apply IH; [|exact Hlab].
  intros i j H.
  destruct (@set_item_cases lab a b k i j) as [E | [P _]].
  - apply Hlab. now rewrite <- E.
  - injection P as -> ->. unfold SciPy.unlabelled in Hun.
    now apply andb_true_iff in Hun.
Qed.

Lemma scan_foreground (fuel : nat) (img : list (list Z))
  (raster : list (nat * nat)) (lab : list (list nat)) (count : nat) :
  (forall i j, SciPy.label_of lab i j <> 0 ->
               SciPy.foreground img i j = true) ->
  forall i j,
    SciPy.label_of (fst (SciPy.scan fuel img raster lab count)) i j <> 0 ->
    SciPy.foreground img i j = true.
Proof.
  revert lab count. induction raster as [|[a b] rest IH]; intros lab count Hlab;
    cbn [SciPy.scan]; [exact Hlab|].
  destruct (SciPy.unlabelled img lab a b); apply IH; [|exact Hlab].
  now apply flood_foreground.
Qed.

Lemma label_labels_foreground : labels_foreground SciPy.label.
Proof.
  intros image i j. unfold SciPy.label.
  set (fuel := S _). set (raster := list_prod _ _).
  set (blank := map _ (cells image)).
  pose proof (@scan_foreground fuel (cells image) raster blank 0) as H.
  destruct (SciPy.scan fuel (cells image) raster blank 0) as [lab count].
  cbn [fst cells] in *. apply H.
  intros a b Hab. unfold blank in Hab. now rewrite label_of_blank in Hab.
Qed.

Lemma map_map_map {A B C : Type} (g : B -> C) (h : A -> B)
  (rows : list (list A)) :
  map (map g) (map (map h) rows) = map (map (fun x => g (h x))) rows.
Proof. rewrite map_map. apply map_ext. intros r. apply map_map. Qed.

Lemma nth_map_map {A B : Type} (g : A -> B) (d : B) (rows : list (list A))
  (i j : nat) :
  nth j (nth i (map (map g) rows) []) d <> d ->
  exists x, nth_error (nth i rows []) j = Some x /\
            nth j (nth i (map (map g) rows) []) d = g x.
Proof.
  revert i. induction rows as [|r rows IH]; intros [|i]; cbn [map nth].
  - destruct j; intros H; now contradiction H.
  - destruct j; intros H; now contradiction H.
  - clear IH. revert j. induction r as [|x r IH]; intros [|j]; cbn;
      try (intros H; now contradiction H).
    + intros _. now exists x.
    + apply IH.
  - apply IH.
Qed.

(** X17: the returned cluster lies under the returned threshold. When the
    labelling gives labels to foreground cells only, every cell marked in
    the returned mask is a cell of the field whose height is at most the
    returned threshold. *)
Theorem cluster_under_threshold {T : Type} {scalar : Scalar T}
  (label : ndarray Z -> ndarray nat * nat) (landscape : ndarray T)
  (axis : Z) (conv : T) (periodic : bool) (n : nat) (t : T)
  (m : ndarray Z) :
  labels_foreground label ->
  percolation_threshold label n landscape axis conv periodic =
    Returned (t, Some m) ->
  forall i j, item 0%Z m i j <> 0%Z ->
    exists h, nth_error (nth i (cells landscape) []) j = Some h /\
              sc_leb h t = true.
Proof.
  intros Hlabel. unfold percolation_threshold.
  destruct (search label n landscape axis conv periodic) as [b| |] eqn:Hs;
    try discriminate.
  intros H. injection H as <- Hm.
  destruct (@search_visits T scalar label landscape axis conv periodic n b Hs)
    as [Hb _].
  unfold search in Hs.
  destruct (initial landscape) as [b0|e] eqn:H0; [|discriminate].
  destruct (@visits_brackets T scalar label landscape axis conv periodic
              b0 b H0 Hb) as [[[Hnone _] | (f & Hf & Hc)] _]; [congruence|].
  rewrite Hc in Hm. injection Hm as <-.
  unfold percolating_at in Hf.
  pose proof (Hlabel (below landscape (threshold_upper b))) as Hfg.
  destruct (label (below landscape (threshold_upper b))) as [features labels].
  cbn [fst] in Hfg.
  apply first_percolating_from in Hf. destruct Hf as (l & _ & -> & _ & _).
  intros i j Hon. unfold item, astype_int, feature, amap in Hon.
  cbn [cells] in Hon. rewrite map_map_map in Hon.
  destruct (@nth_map_map nat Z _ 0%Z (cells features) i j Hon)
    as (v & Hv & Ev).
  rewrite Ev in Hon.
  assert (Hlab : SciPy.label_of (cells features) i j <> 0).
  { unfold SciPy.label_of. rewrite (nth_error_nth _ _ 0 Hv).
    intros ->. apply Hon. now rewrite Nat.add_1_r. }
  apply Hfg in Hlab. unfold SciPy.foreground, below, astype_int, amap in Hlab.
  cbn [cells] in Hlab. rewrite map_map_map in Hlab.
  apply negb_true_iff, Z.eqb_neq in Hlab.
  destruct (@nth_map_map T Z _ 0%Z (cells landscape) i j Hlab)
    as (h & Hh & Eh).
  rewrite Eh in Hlab. exists h. split; [exact Hh|].
  now destruct (sc_leb h (threshold_upper b)).
Qed.

Lemma cluster_under_threshold_witness :
  exists h, nth_error (nth 2 (cells (trench 0 10)%float) []) 3 = Some h /\
            sc_leb h 0.009765625%float = true.
Proof.
  apply (@cluster_under_threshold float float64 SciPy.label
           (trench 0 10)%float 0 hundredth false 10 0.009765625%float
           trench_mask);
    [exact label_labels_foreground | vm_compute; reflexivity | discriminate].
Defined.

(** ** NaN heights and tolerances *)

Lemma nan_spec (x : float) : PrimFloat.is_nan x = true -> Prim2SF x = S754_nan.
Proof. intros H. unfold Prim2SF. now rewrite H. Qed.

Lemma nothing_above_nan (x y : float) :
  PrimFloat.is_nan y = true -> PrimFloat.ltb x y = false.
Proof.
  intros H. rewrite ltb_spec, (nan_spec y H).
  unfold SFltb. now destruct (Prim2SF x).
Qed.

Lemma nan_above_nothing (x y : float) :
  PrimFloat.is_nan x = true -> PrimFloat.ltb x y = false.
Proof.
  intros H. rewrite ltb_spec, (nan_spec x H). reflexivity.
Qed.

Lemma sub_nan (x y : float) :
  PrimFloat.is_nan x = true -> PrimFloat.is_nan (x - y) = true.
Proof.
  intros H. unfold PrimFloat.is_nan. rewrite eqb_spec, sub_spec.
  now rewrite (nan_spec x H).
Qed.

Lemma fold_max_nan (xs : list float) (x : float) :
  PrimFloat.is_nan x = true \/
  (exists y, In y xs /\ PrimFloat.is_nan y = true) ->
  PrimFloat.is_nan (fold_left sc_max xs x) = true.
Proof.
  revert x. induction xs as [|z xs IH]; intros x H; cbn [fold_left].
  - destruct H as [H | (y & [] & _)]. exact H.
  - apply IH. cbn [sc_max float64].
    destruct (PrimFloat.is_nan x) eqn:Ex; [now left|].
    destruct (PrimFloat.is_nan z) eqn:Ez; [now left|].
    destruct H as [H | (y & [<- | Hy] & Hn)]; try congruence.
    right. now exists y.
Qed.

(** X18: NaN stops the search at once. With [float64] heights, when a cell
    of the field is a NaN, the maximum is a NaN and the loop test
    [upper - lower > conv] is false: the search returns a NaN threshold
    and no cluster without an iteration; and when [conv] is a NaN it
    returns the maximum of the field and no cluster in the same way. *)
Theorem nan_stops_the_search (label : ndarray Z -> ndarray nat * nat)
  (landscape : ndarray float) (axis : Z) (conv : float) (periodic : bool)
  (fuel : nat) :
  ((exists h, In h (ravel landscape) /\ PrimFloat.is_nan h = true) ->
   exists t, PrimFloat.is_nan t = true /\
     percolation_threshold label fuel landscape axis conv periodic =
       Returned (t, None)) /\
  (PrimFloat.is_nan conv = true -> ravel landscape <> [] ->
   exists t, amax landscape = Ok t /\
     percolation_threshold label fuel landscape axis conv periodic =
       Returned (t, None)).
Proof.
  split.
  - intros (h & Hin & Hnan).
    unfold percolation_threshold, search, initial, amax, amin, reduce.
    destruct (ravel landscape) as [|x xs]; [contradiction|]. cbn [bind].
    assert (Hmax : PrimFloat.is_nan (fold_left sc_max xs x) = true).
    { apply fold_max_nan. destruct Hin as [<- | Hin]; [now left|].
      right. now exists h. }
    exists (fold_left sc_max xs x). split; [exact Hmax|].
    assert (Hopen : forall b : bracket float,
              threshold_upper b = fold_left sc_max xs x ->
              open conv b = false).
    { intros b Hb. unfold open. cbn [sc_gtb sc_sub float64].
      apply nothing_above_nan. rewrite Hb. now apply sub_nan. }
    destruct fuel; cbn [bisect]; now rewrite Hopen.
  - intros Hnan Hne.
    unfold percolation_threshold, search, initial, amax, amin, reduce.
    destruct (ravel landscape) as [|x xs]; [contradiction|]. cbn [bind].
    exists (fold_left sc_max xs x). split; [reflexivity|].
    assert (Hopen : forall b : bracket float, open conv b = false).
    { intros b. unfold open. cbn [sc_gtb sc_sub float64].
      now apply nan_above_nothing. }
    destruct fuel; cbn [bisect]; now rewrite Hopen.
Qed.

Lemma nan_stops_the_search_witness :
  exists t, PrimFloat.is_nan t = true /\
    percolation_threshold SciPy.label 5 (array [[0; nan]; [10; 10]]%float) 0
      1%float false = Returned (t, None).
Proof.
  apply (proj1 (@nan_stops_the_search SciPy.label
                  (array [[0; nan]; [10; 10]]%float) 0 1%float false 5)).
  exists nan. split; [right; left; reflexivity | reflexivity].
Defined.
